(** * The IPL of the badge SoC: [soc/ipl/main.c]

    A shallow embedding of [cache_flush], [lcd_pset] and [main] as interaction
    trees over the operations the code performs on its surroundings (byte
    accesses to RAM, the global [lcdfb], memory-mapped registers and the calls
    into the collaborating modules), an executable semantics that runs such a
    tree against a world, and the properties of the handoff, the pixel codec,
    the cache flush and the diagnostic loop proved on it. *)

From Stdlib Require Import ZArith List String Bool Lia Wf_nat.
From Stdlib Require Import Decimal DecimalString DecimalZ DecimalPos.
From Stdlib Require DecimalFacts Nnat.
From ITree Require Import ITree.
Import ListNotations.
Import ITreeNotations.
Local Open Scope Z_scope.
Local Open Scope itree_scope.

(** ** Machine integers *)

Module Word.

(** [uint32_t], [uint8_t] and [int] values are integers reduced to the range
    of the type. *)
Definition wrap32 (z : Z) : Z := z mod 2 ^ 32.
Definition wrap8 (z : Z) : Z := z mod 2 ^ 8.
Definition int32 (z : Z) : Z := (z + 2 ^ 31) mod 2 ^ 32 - 2 ^ 31.

Definition INT_MAX : Z := 2 ^ 31 - 1.
Definition INT_MIN : Z := - 2 ^ 31.
Definition NULL : Z := 0.

End Word.
Import Word.

(** ** The platform constants

    [gloss/mach_defines.h] and [ugui.h] give these their values. *)

Record platform : Type := mkPlatform {
  MACH_RAM_START : Z;
  MACH_FLUSH_REGION : Z;
  MISC_LED_REG : Z;
  MISC_RNG_REG : Z;
  GFX_FBADDR_REG : Z;
  FLASH_SEL_INT : Z;
  FONT_12X16 : Z;
  C_WHITE : Z;
  C_GREEN : Z;
  C_RED : Z
}.

(** The register banks declared [extern volatile uint32_t X[]]. *)
Variant bank : Type := UART | MISC | LCD | GFX.

(** ** Operations

    Everything [main.c] does to its surroundings. The index of an operation is
    the type of what it hands back. *)

Variant badgeE : Type -> Type :=
(* the global [uint8_t *lcdfb] *)
| get_lcdfb : badgeE Z
| set_lcdfb (p : Z) : badgeE unit
(* [uint8_t] accesses through a pointer *)
| mem_load8 (a : Z) : badgeE Z
| mem_store8 (a v : Z) : badgeE unit
(* [*p = v] through a [volatile uint32_t *] *)
| mem_store32 (a v : Z) : badgeE unit
(* [X[i] = v] and [X[i]] on a register bank *)
| reg_store (b : bank) (i v : Z) : badgeE unit
| reg_load (b : bank) (i : Z) : badgeE Z
(* the collaborators *)
| syscall_reinit : badgeE unit
| lcd_init : badgeE unit
| calloc (n size : Z) : badgeE Z
| UG_Init (w h : Z) : badgeE unit
| UG_FontSelect (font : Z) : badgeE unit
| UG_SetForecolor (c : Z) : badgeE unit
| UG_PutString (x y : Z) (s : string) : badgeE unit
| tusb_init : badgeE unit
| printf (fmt : string) (args : list Z) : badgeE unit
| flash_get_id (sel : Z) : badgeE Z
| fs_init : badgeE unit
| load_new_app (name : string) (max_app_addr : Z) : badgeE (Z * Z)
| sbrk_app_set_heap_start (a : Z) : badgeE unit
| maincall (la argc argv : Z) : badgeE unit
| usb_msc_on : badgeE unit
| usb_poll : badgeE unit
| tud_task : badgeE unit.

(** The operations, whatever their index. *)
Definition event : Type := { X : Type & badgeE X }.
Definition Ev {X} (e : badgeE X) : event := existT _ X e.

(** The words an operation hands back: none for a [void] call, the value for a
    read or a call with a result, the pair for the loader. *)
Definition words {X} (e : badgeE X) : X -> list Z :=
  match e in badgeE T return T -> list Z with
  | get_lcdfb => fun v => [v]
  | mem_load8 _ => fun v => [v]
  | reg_load _ _ => fun v => [v]
  | calloc _ _ => fun v => [v]
  | flash_get_id _ => fun v => [v]
  | load_new_app _ _ => fun r => [fst r; snd r]
  | _ => fun _ => []
  end.

(** An entry of the log: an operation and what it handed back. *)
Definition entry : Type := (event * list Z)%type.

(** The entry point, [argc] and [argv] of an entry that calls into the loaded
    application. *)
Definition maincall_of (o : entry) : option (Z * Z * Z) :=
  match projT2 (fst o) with
  | maincall la argc argv => Some (la, argc, argv)
  | _ => None
  end.

(** The location and the value of an entry that stores through a
    [volatile uint32_t *]. *)
Definition store32_of (o : entry) : option (Z * Z) :=
  match projT2 (fst o) with
  | mem_store32 a v => Some (a, v)
  | _ => None
  end.

(** The entries that neither invoke an entry point nor store through a
    [volatile uint32_t *], as [cache_flush] does. *)
Definition quiet (o : entry) : Prop := maincall_of o = None /\ store32_of o = None.

(** The entries that write: to RAM, to a device or to [lcdfb]. *)
Definition is_write (o : entry) : bool :=
  match projT2 (fst o) with
  | mem_store8 _ _ | mem_store32 _ _ | reg_store _ _ _ | set_lcdfb _ => true
  | _ => false
  end.

(** ** The program *)

Section Program.

Variable pf : platform.

(** [void cache_flush(void *addr_start, void *addr_end)]: one store through
    a [volatile uint32_t *]. *)
Definition cache_flush_p (addr_start : Z) : Z :=
  wrap32 (Z.land (wrap32 addr_start) (wrap32 (Z.lnot 3))
          - MACH_RAM_START pf + MACH_FLUSH_REGION pf).

Definition cache_flush (addr_start addr_end : Z) : itree badgeE unit :=
  let p := cache_flush_p addr_start in
  ITree.trigger (mem_store32 p (wrap32 (wrap32 addr_end - MACH_RAM_START pf))).

(** The local [n] of [lcd_pset] after its six tests of [c]. *)
Definition lcd_pset_n (c : Z) : Z :=
  let n := 0 in
  let n := if Z.land c (Z.shiftl 1 7) =? 0 then n else Z.lor n 4 in
  let n := if Z.land c (Z.shiftl 1 15) =? 0 then n else Z.lor n 2 in
  let n := if Z.land c (Z.shiftl 1 23) =? 0 then n else Z.lor n 1 in
  let n := if Z.land c (Z.shiftl 1 6) =? 0 then n else Z.lor n 8 in
  let n := if Z.land c (Z.shiftl 1 14) =? 0 then n else Z.lor n 8 in
  let n := if Z.land c (Z.shiftl 1 22) =? 0 then n else Z.lor n 8 in
  n.

(** The index [(x+y*512)/2] of [lcd_pset]. *)
Definition lcd_pset_index (x y : Z) : Z := Z.quot (x + y * 512) 2.

(** The local [o] of [lcd_pset] after [if (x&1) ... else ...], as a
    [uint8_t]. *)
Definition lcd_pset_o (x o n : Z) : Z :=
  if Z.land x 1 =? 0
  then wrap8 (Z.lor (Z.land o 0xf0) n)
  else wrap8 (Z.lor (Z.land o 0xf) (Z.shiftl n 4)).

(** [static void lcd_pset(UG_S16 x, UG_S16 y, UG_COLOR c)]. Every mention of
    [lcdfb] reads the global. *)
Definition lcd_pset (x y c : Z) : itree badgeE unit :=
  fb <- ITree.trigger get_lcdfb;;
  if fb =? NULL then Ret tt else
  if (x <? 0) || (x >? 480) then Ret tt else
  if (y <? 0) || (y >? 320) then Ret tt else
  let n := lcd_pset_n c in
  fb <- ITree.trigger get_lcdfb;;
  o <- ITree.trigger (mem_load8 (fb + lcd_pset_index x y));;
  let o := lcd_pset_o x o n in
  fb <- ITree.trigger get_lcdfb;;
  ITree.trigger (mem_store8 (fb + lcd_pset_index x y) o).

(** [for (int i=0; i<n; i++) body]. *)
Definition for_lt (n : Z) (body : Z -> itree badgeE unit) : itree badgeE unit :=
  ITree.iter
    (fun i => if i <? n then body i;; Ret (inl (int32 (i + 1))) else Ret (inr tt))
    0.

(** [sprintf(buf, "%d", p)]: the signed decimal numeral of [p]. *)
Definition sprintf_d (p : Z) : string := NilZero.string_of_int (Z.to_int p).

(** The integer a signed decimal numeral stands for. *)
Definition decimal_value (s : string) : option Z :=
  option_map Z.of_int (NilZero.int_of_string s).

(** The number of bytes [main] asks [calloc] for, [320*512/2]. *)
Definition lcdfb_size : Z := Z.quot (320 * 512) 2.

(** [main], lines 63 to 83: bring-up. Format strings are kept as the source
    spells them; [UG_Init] is also handed [&ugui] and [lcd_pset], the
    callback through which the GUI draws. *)
Definition boot : itree badgeE unit :=
  ITree.trigger syscall_reinit;;
  ITree.trigger (reg_store MISC (Z.quot (MISC_LED_REG pf) 4) 0xff);;
  ITree.trigger lcd_init;;
  fb <- ITree.trigger (calloc lcdfb_size 1);;
  ITree.trigger (set_lcdfb fb);;
  fb <- ITree.trigger get_lcdfb;;
  ITree.trigger (reg_store GFX (Z.quot (GFX_FBADDR_REG pf) 4)
                   (Z.land (wrap32 fb) 0x7FFFFF));;
  ITree.trigger (UG_Init 480 320);;
  ITree.trigger (UG_FontSelect (FONT_12X16 pf));;
  ITree.trigger (UG_SetForecolor (C_WHITE pf));;
  ITree.trigger tusb_init;;
  ITree.trigger (printf "USB inited.\n" []);;
  id <- ITree.trigger (flash_get_id (FLASH_SEL_INT pf));;
  ITree.trigger (printf "flashid: %x\n" [id]);;
  ITree.trigger fs_init;;
  ITree.trigger (printf "Your random numbers are:\n" []);;
  for_lt 16 (fun i =>
    r <- ITree.trigger (reg_load MISC (Z.quot (MISC_RNG_REG pf) 4));;
    ITree.trigger (printf "%d: %08X (%d)\n" [i; r; r])).

(** [main], lines 85 to 91: the handoff to the loaded application. The
    loader hands back the entry point and what it left in [max_app_addr]. *)
Definition handoff : itree badgeE unit :=
  let max_app_addr := 0 in
  '(la, max_app_addr) <- ITree.trigger (load_new_app "autoexec.elf" max_app_addr);;
  ITree.trigger
    (printf "Loaded app, entry point is 0x%x, max addr used is 0x%X. Running...\n"
       [la; max_app_addr]);;
  ITree.trigger (sbrk_app_set_heap_start max_app_addr);;
  ITree.trigger (printf "Go!\n" []);;
  ITree.trigger (maincall la 0 NULL).

(** [main], lines 96 to 100. *)
Definition diag_setup : itree badgeE unit :=
  ITree.trigger (UG_PutString 0 0 "Hello world!");;
  ITree.trigger (UG_PutString 0 (320 - 20) "Narf.");;
  ITree.trigger (UG_SetForecolor (C_GREEN pf));;
  ITree.trigger
    (UG_PutString 0 16
       "This is a test of the framebuffer to HDMI and LCD thingamajig. What you see now is the framebuffer memory.");;
  ITree.trigger usb_msc_on.

(** [main], lines 107 to 110. *)
Definition poll_transport : itree badgeE unit :=
  for_lt 500 (fun _ => ITree.trigger usb_poll;; ITree.trigger tud_task).

(** [main], lines 102 to 110: the body of [while(1)], from the value of [p]
    to its next value. *)
Definition diag_iteration (p : Z) : itree badgeE Z :=
  let p := int32 (p + 1) in
  let buf := sprintf_d p in
  ITree.trigger (UG_SetForecolor (C_RED pf));;
  ITree.trigger (UG_PutString 48 64 buf);;
  fb_start <- ITree.trigger get_lcdfb;;
  fb_end <- ITree.trigger get_lcdfb;;
  cache_flush fb_start (fb_end + Z.quot (320 * 480) 2);;
  poll_transport;;
  Ret p.

(** [while(1) { ... }]. *)
Definition diag_loop (p : Z) : itree badgeE void :=
  ITree.iter (fun p => p' <- diag_iteration p;; Ret (inl p')) p.

(** [void main()]. The local [p] is read before it is ever written: [p0] is
    the value it happens to hold. [main] never returns: its result type is
    empty. *)
Definition main (p0 : Z) : itree badgeE void :=
  boot;; handoff;; diag_setup;; diag_loop p0.

End Program.

(** ** The channels of a color *)

(** Modelled from the spec: the channels of a [UG_COLOR]. The type and its
    colors are declared in [ugui.h], which is not under [src/]; the
    specification calls a color "a 24-bit (or wider) RGB value", read here
    as [0xRRGGBB]: red in bits 16 to 23, green in bits 8 to 15, blue in
    bits 0 to 7. *)
Definition color_red (c : Z) : Z := Z.land (Z.shiftr c 16) 0xFF.
Definition color_green (c : Z) : Z := Z.land (Z.shiftr c 8) 0xFF.
Definition color_blue (c : Z) : Z := Z.land c 0xFF.

(** Modelled from the spec: of the eight bits of a channel the codec uses
    "a high bit and an adjacent also-high bit", the top bit and the one
    below it. *)
Definition top_used_bit (ch : Z) : bool := Z.testbit ch 7.
Definition secondary_bit (ch : Z) : bool := Z.testbit ch 6.

(** ** Worlds and runs *)

Section World.

(** The state of the collaborators is theirs; [Ext] stands for it. *)
Context {Ext : Type}.

Record world : Type := mkWorld {
  lcdfb : Z;
  ram : Z -> Z;
  ext : Ext
}.

Definition upd (m : Z -> Z) (a v : Z) : Z -> Z :=
  fun a' => if a' =? a then v else m a'.

(** The worlds and coordinates that pass the three guards of [lcd_pset]. *)
Definition lcd_pset_accepts (w : world) (x y : Z) : Prop :=
  lcdfb w <> NULL /\ 0 <= x <= 480 /\ 0 <= y <= 320.

(** What a collaborator or a device does to the world and hands back. *)
Variable collab : forall X, badgeE X -> world -> world * X.

(** The program's own accesses to [lcdfb] and to RAM have their meaning
    here; everything else is the collaborators'. *)
Definition handle {X} (e : badgeE X) (w : world) : world * X :=
  match e in badgeE T return world * T with
  | get_lcdfb => (w, lcdfb w)
  | set_lcdfb p => (mkWorld p (ram w) (ext w), tt)
  | mem_load8 a => (w, ram w a)
  | mem_store8 a v => (mkWorld (lcdfb w) (upd (ram w) a v) (ext w), tt)
  | e' => collab _ e' w
  end.

(** [run fuel w t] performs at most [fuel] steps of [t] from [w]: the log,
    the world reached and, when [t] returned, its result and the fuel left. *)
Fixpoint run {R} (fuel : nat) (w : world) (t : itree badgeE R)
  : list entry * world * option (R * nat) :=
  match fuel with
  | O => ([], w, None)
  | S f =>
      match observe t with
      | RetF r => ([], w, Some (r, fuel))
      | TauF t' => run f w t'
      | VisF e k =>
          let '(w1, x) := handle e w in
          let '(l, w2, o) := run f w1 (k x) in
          ((Ev e, words e x) :: l, w2, o)
      end
  end.

Definition trace_of {R} (fuel : nat) (w : world) (t : itree badgeE R) : list entry :=
  fst (fst (run fuel w t)).
Definition world_of {R} (fuel : nat) (w : world) (t : itree badgeE R) : world :=
  snd (fst (run fuel w t)).
Definition result_of {R} (fuel : nat) (w : world) (t : itree badgeE R) : option R :=
  option_map fst (snd (run fuel w t)).

(** [t] run from [w] returns [r] after [s] steps, leaving the log [l] and
    the world [w']. *)
Definition completes {R} (s : nat) (w : world) (t : itree badgeE R)
           (l : list entry) (w' : world) (r : R) : Prop :=
  forall k, run (s + S k) w t = (l, w', Some (r, S k)).

(** Every entry [t] ever logs satisfies [Q]. *)
Definition always {R} (Q : entry -> Prop) (t : itree badgeE R) : Prop :=
  forall fuel w, Forall Q (trace_of fuel w t).

(** The world after an operation. *)
Definition after {X} (e : badgeE X) (w : world) : world := fst (handle e w).

(** The world and the log after [count] rounds of a counted loop whose
    round [i] from [w] logs [lb i w] and leaves [wb i w]. *)
Fixpoint for_world (wb : Z -> world -> world) (count : nat) (i : Z) (w : world)
  : world :=
  match count with
  | O => w
  | S c => for_world wb c (i + 1) (wb i w)
  end.

Fixpoint for_log (lb : Z -> world -> list entry) (wb : Z -> world -> world)
         (count : nat) (i : Z) (w : world) : list entry :=
  match count with
  | O => []
  | S c => lb i w ++ for_log lb wb c (i + 1) (wb i w)
  end.

End World.

Arguments world Ext : clear implicits.

(** ** A sample platform and sample collaborators

    Concrete values to run the program on: a platform, collaborators that
    touch nothing and hand back fixed answers (the loader the entry point
    [0x40002000] and the highest used address [0x40010000], [calloc] the
    address [0x40100000]), and a world with an unset [lcdfb] and zeroed
    RAM. *)

Module Sample.

Definition pf : platform :=
  mkPlatform 0x40000000 0x41000000 0 4 8 0 0x1000 0xFFFFFF 0x00FF00 0xFF0000.

Definition collab : forall X, badgeE X -> world unit -> world unit * X :=
  fun X e w =>
    match e in badgeE T return world unit * T with
    | calloc _ _ => (w, 0x40100000)
    | load_new_app _ _ => (w, (0x40002000, 0x40010000))
    | flash_get_id _ => (w, 0xC22018)
    | reg_load _ _ => (w, 42)
    | get_lcdfb => (w, lcdfb w)
    | mem_load8 a => (w, ram w a)
    | _ => (w, tt)
    end.

Definition w0 : world unit := mkWorld 0 (fun _ => 0) tt.

(** A world whose framebuffer is allocated at [0x40100000]. *)
Definition w1 : world unit := mkWorld 0x40100000 (fun _ => 0) tt.

End Sample.

(** ** The logs of [main] *)

Section MainLogs.

Context {Ext : Type}.
Variable pf : platform.
Variable collab : forall X, badgeE X -> world Ext -> world Ext * X.

(** One round of the inner loop of [main]: the two polling calls. *)
Definition poll_round : list entry := [(Ev usb_poll, []); (Ev tud_task, [])].

Definition poll_round_world (i : Z) (w : world Ext) : world Ext :=
  after collab tud_task (after collab usb_poll w).

(** The world in which an iteration of [while(1)] reads [lcdfb]: the one the
    two calls into the GUI leave. *)
Definition drawn_world (p : Z) (w : world Ext) : world Ext :=
  after collab (UG_PutString 48 64 (sprintf_d (int32 (p + 1))))
    (after collab (UG_SetForecolor (C_RED pf)) w).

(** The log of the handoff for a loader that hands back [la] and [m]. *)
Definition handoff_log (la m : Z) : list entry :=
  [(Ev (load_new_app "autoexec.elf" 0), [la; m]);
   (Ev (printf "Loaded app, entry point is 0x%x, max addr used is 0x%X. Running...\n"
          [la; m]), []);
   (Ev (sbrk_app_set_heap_start m), []);
   (Ev (printf "Go!\n" []), []);
   (Ev (maincall la 0 NULL), [])].

End MainLogs.

(** ** More readings of logs and worlds *)

(** The name and the initial [max_app_addr] of an entry that calls the
    loader. *)
Definition loader_of (o : entry) : option (string * Z) :=
  match projT2 (fst o) with
  | load_new_app name m => Some (name, m)
  | _ => None
  end.

(** The position and the text of an entry that calls [UG_PutString]. *)
Definition putstring_of (o : entry) : option (Z * Z * string) :=
  match projT2 (fst o) with
  | UG_PutString x y s => Some (x, y, s)
  | _ => None
  end.

(** The entries of the diagnostic part of [main]: drawing strings, turning
    the mass storage on, polling the transport and flushing. *)
Definition is_diag (o : entry) : bool :=
  match projT2 (fst o) with
  | UG_PutString _ _ _ | usb_msc_on | usb_poll | tud_task | mem_store32 _ _ => true
  | _ => false
  end.

Definition is_poll (o : entry) : bool :=
  match projT2 (fst o) with
  | usb_poll | tud_task => true
  | _ => false
  end.

Definition is_store32 (o : entry) : bool :=
  match store32_of o with
  | Some _ => true
  | None => false
  end.

(** The strings a log puts on the screen, in order. *)
Definition strings_put (l : list entry) : list (Z * Z * string) :=
  flat_map (fun o => match putstring_of o with
                     | Some t => [t]
                     | None => []
                     end) l.

Section PixelWorlds.

Context {Ext : Type}.

(** The three guards of [lcd_pset], as the code tests them. *)
Definition lcd_pset_passes (w : world Ext) (x y : Z) : bool :=
  negb (lcdfb w =? NULL)
  && negb ((x <? 0) || (x >? 480))
  && negb ((y <? 0) || (y >? 320)).

(** The world a call of [lcd_pset] leaves. *)
Definition lcd_pset_world (x y c : Z) (w : world Ext) : world Ext :=
  if lcd_pset_passes w x y
  then
    let a := lcdfb w + lcd_pset_index x y in
    mkWorld (lcdfb w) (upd (ram w) a (lcd_pset_o x (ram w a) (lcd_pset_n c))) (ext w)
  else w.

(** Two worlds with the same [lcdfb], the same bytes and the same state of
    the collaborators. *)
Definition same_world (w w' : world Ext) : Prop :=
  lcdfb w = lcdfb w' /\ (forall a, ram w a = ram w' a) /\ ext w = ext w'.

End PixelWorlds.

(** The size of [char buf[20]], the buffer of [main] that [sprintf] fills. *)
Definition buf_size : nat := 20.

Section RngLogs.

Context {Ext : Type}.
Variable pf : platform.
Variable collab : forall X, badgeE X -> world Ext -> world Ext * X.

(** Round [i] of the loop that prints the random numbers, from [w]: the read
    of the register and the line printed. *)
Definition rng_round_log (i : Z) (w : world Ext) : list entry :=
  let e := reg_load MISC (Z.quot (MISC_RNG_REG pf) 4) in
  let r := snd (collab _ e w) in
  [(Ev e, [r]); (Ev (printf "%d: %08X (%d)\n" [i; r; r]), [])].

Definition rng_round_world (i : Z) (w : world Ext) : world Ext :=
  let e := reg_load MISC (Z.quot (MISC_RNG_REG pf) 4) in
  let r := snd (collab _ e w) in
  after collab (printf "%d: %08X (%d)\n" [i; r; r]) (after collab e w).

End RngLogs.

(** Collaborators as in [Sample], but with a loader that fails and hands
    back a null entry point, and a [calloc] that hands back [p]. *)
Module SampleNull.

Definition collab (p : Z) : forall X, badgeE X -> world unit -> world unit * X :=
  fun X e w =>
    match e in badgeE T return world unit * T with
    | calloc _ _ => (w, p)
    | load_new_app _ m => (w, (NULL, m))
    | flash_get_id _ => (w, 0xC22018)
    | reg_load _ _ => (w, 42)
    | get_lcdfb => (w, lcdfb w)
    | mem_load8 a => (w, ram w a)
    | _ => (w, tt)
    end.

End SampleNull.

(** ** Facts about machine integers *)

Section WordFacts.

Lemma int32_small (z : Z) : INT_MIN <= z <= INT_MAX -> int32 z = z.
Proof.
  unfold int32, INT_MIN, INT_MAX. intros H.
  rewrite Z.mod_small; lia.
Qed.

Lemma wrap32_small (z : Z) : 0 <= z < 2 ^ 32 -> wrap32 z = z.
Proof. intros H. apply Z.mod_small, H. Qed.

Lemma wrap32_sub_l (a b : Z) : wrap32 (wrap32 a - b) = wrap32 (a - b).
Proof. unfold wrap32. apply Zminus_mod_idemp_l. Qed.

Lemma wrap8_land (z : Z) : wrap8 z = Z.land z 255.
Proof. unfold wrap8. rewrite <- Z.land_ones by lia. reflexivity. Qed.

Lemma testbit_small (a i : Z) : 0 <= a < 256 -> 8 <= i -> Z.testbit a i = false.
Proof.
  intros Ha Hi. destruct (Z.eq_dec a 0) as [->|Hn]; [apply Z.bits_0|].
  apply Z.bits_above_log2; [lia|].
  assert (Z.log2 a < 8); [|lia]. apply Z.log2_lt_pow2; lia.
Qed.

Lemma testbit_tiny (a i : Z) : 0 <= a < 16 -> 4 <= i -> Z.testbit a i = false.
Proof.
  intros Ha Hi. destruct (Z.eq_dec a 0) as [->|Hn]; [apply Z.bits_0|].
  apply Z.bits_above_log2; [lia|].
  assert (Z.log2 a < 4); [|lia]. apply Z.log2_lt_pow2; lia.
Qed.

(** [(uint32_t)a & ~3] clears the two low bits of [a]. *)
Lemma land_not3 (a : Z) :
  0 <= a < 2 ^ 32 -> Z.land (wrap32 a) (wrap32 (Z.lnot 3)) = a - a mod 4.
Proof.
  intros Ha. rewrite wrap32_small by exact Ha.
  unfold wrap32. rewrite <- (Z.land_ones (Z.lnot 3) 32) by lia.
  rewrite (Z.land_comm (Z.lnot 3)), Z.land_assoc, Z.land_ones by lia.
  rewrite Z.mod_small by exact Ha.
  change (Z.land a (Z.lnot 3)) with (Z.ldiff a (Z.ones 2)).
  rewrite Z.ldiff_ones_r, Z.shiftl_mul_pow2, Z.shiftr_div_pow2 by lia.
  change (2 ^ 2) with 4. pose proof (Z.div_mod a 4 ltac:(lia)). lia.
Qed.

(** [c & (1<<k)] is nonzero exactly when bit [k] of [c] is set. *)
Lemma land_pow2_eqb (c k : Z) :
  0 <= k -> (Z.land c (Z.shiftl 1 k) =? 0) = negb (Z.testbit c k).
Proof.
  intros Hk. rewrite Z.shiftl_1_l.
  destruct (Z.testbit c k) eqn:Hb; simpl.
  - apply Z.eqb_neq. intros H.
    assert (Hc : Z.testbit (Z.land c (2 ^ k)) k = true).
    { rewrite Z.land_spec, Hb, Z.pow2_bits_true; auto. }
    rewrite H, Z.bits_0 in Hc. discriminate.
  - apply Z.eqb_eq. apply Z.bits_inj'. intros n Hn.
    rewrite Z.land_spec, Z.bits_0, Z.pow2_bits_eqb by lia.
    destruct (Z.eqb_spec k n) as [->|]; [rewrite Hb|]; auto using andb_false_r.
Qed.

(** [x & 1] is zero exactly when [x] is even. *)
Lemma land_1_eqb (x : Z) : (Z.land x 1 =? 0) = Z.even x.
Proof.
  change 1 with (Z.shiftl 1 0). rewrite land_pow2_eqb by lia.
  rewrite Z.bit0_odd, <- Z.negb_even. apply negb_involutive.
Qed.

End WordFacts.

(** The integers of [0, k), one by one. *)
Lemma below_cases (k : nat) (n : Z) :
  0 <= n < Z.of_nat k -> In n (map Z.of_nat (seq 0 k)).
Proof.
  intros H. rewrite <- (Z2Nat.id n) by lia.
  apply in_map, in_seq. lia.
Qed.

Ltac enumerate k n :=
  let H := fresh in
  assert (H : In n (map Z.of_nat (seq 0 k))) by (apply below_cases; simpl; lia);
  simpl in H;
  repeat (destruct H as [H|H]; [subst n|]); [..|contradiction H].

Ltac bit_cases i :=
  let H := fresh in
  destruct (Z_lt_le_dec i 8) as [H|H]; [enumerate 8%nat i|].

Ltac nibble_cases n := enumerate 16%nat n.

(** Equalities between bytes built with [&], [|] and shifts, bit by bit. *)
Ltac bits :=
  apply Z.bits_inj'; intros ?i ?Hi;
  repeat first [ rewrite Z.land_spec | rewrite Z.lor_spec
               | rewrite Z.shiftl_spec by lia | rewrite Z.shiftr_spec by lia ];
  match goal with
  | i : Z |- _ =>
      bit_cases i;
      [ simpl; rewrite ?andb_false_r, ?andb_true_r, ?orb_false_r, ?orb_true_r;
        reflexivity ..
      | repeat match goal with
               | |- context [Z.testbit ?a ?j] =>
                   first [ rewrite (testbit_small a j) by lia
                         | rewrite (testbit_tiny a j) by lia ]
               end;
        rewrite ?andb_false_r, ?orb_false_r ]
  end.

(** ** The pixel codec *)

Section PixelCodec.

(** The byte [lcd_pset] stores for an even [x]: low nibble [n], the rest of
    [o] kept. *)
Lemma even_nibble (o n : Z) :
  0 <= n < 16 ->
  let v := Z.lor (Z.land o 0xf0) n in
  wrap8 v = v /\ Z.land v 0xf = n /\ Z.land v 0xf0 = Z.land o 0xf0.
Proof.
  intros Hn v. subst v. rewrite wrap8_land.
  repeat split; nibble_cases n; bits; try reflexivity.
Qed.

(** The byte [lcd_pset] stores for an odd [x]: high nibble [n], the rest of
    [o] kept. *)
Lemma odd_nibble (o n : Z) :
  0 <= n < 16 ->
  let v := Z.lor (Z.land o 0xf) (Z.shiftl n 4) in
  wrap8 v = v /\ Z.shiftr v 4 = n /\ Z.land v 0xf = Z.land o 0xf.
Proof.
  intros Hn v. subst v. rewrite wrap8_land.
  repeat split; nibble_cases n; bits; try reflexivity.
Qed.

(** The two nibbles of a byte, put together. *)
Lemma nibble_pair (n n' : Z) :
  0 <= n < 16 -> 0 <= n' < 16 ->
  let v := Z.lor n (Z.shiftl n' 4) in
  Z.land v 0xf = n /\ Z.shiftr v 4 = n' /\ wrap8 v = v.
Proof.
  intros Hn Hn'. nibble_cases n; nibble_cases n'; repeat split; reflexivity.
Qed.

Lemma low_nibble_gone (o m : Z) :
  0 <= m < 16 ->
  Z.land (Z.lor (Z.land o 0xf) (Z.shiftl m 4)) 0xf0 = Z.shiftl m 4.
Proof. intros Hm. nibble_cases m; bits; reflexivity. Qed.

(** Writing the left pixel of a byte and then the right one, or the right
    one and then the left one, leaves the byte made of the two nibbles. *)
Lemma lcd_pset_o_pair (x o n n' : Z) :
  Z.even x = true -> 0 <= n < 16 -> 0 <= n' < 16 ->
  lcd_pset_o (x + 1) (lcd_pset_o x o n) n' = Z.lor n (Z.shiftl n' 4) /\
  lcd_pset_o x (lcd_pset_o (x + 1) o n') n = Z.lor n (Z.shiftl n' 4).
Proof.
  intros He Hn Hn'. unfold lcd_pset_o. rewrite !land_1_eqb.
  rewrite Z.even_add, He. change (Bool.eqb true (Z.even 1)) with false.
  cbv iota.
  destruct (even_nibble o n Hn) as (E1 & E2 & _).
  destruct (odd_nibble o n' Hn') as (O1 & _ & _).
  destruct (nibble_pair n n' Hn Hn') as (_ & _ & P).
  split.
  - rewrite E1, E2. exact P.
  - rewrite O1, low_nibble_gone by assumption.
    rewrite (Z.lor_comm (Z.shiftl n' 4) n). exact P.
Qed.

Lemma lcd_pset_n_bits (c : Z) :
  lcd_pset_n c =
  Z.b2z (Z.testbit c 23) + 2 * Z.b2z (Z.testbit c 15) + 4 * Z.b2z (Z.testbit c 7)
  + 8 * Z.b2z (Z.testbit c 6 || Z.testbit c 14 || Z.testbit c 22).
Proof.
  unfold lcd_pset_n. rewrite !land_pow2_eqb by lia.
  destruct (Z.testbit c 7), (Z.testbit c 15), (Z.testbit c 23),
    (Z.testbit c 6), (Z.testbit c 14), (Z.testbit c 22); reflexivity.
Qed.

Lemma lcd_pset_n_range (c : Z) : 0 <= lcd_pset_n c < 16.
Proof.
  rewrite lcd_pset_n_bits.
  destruct (Z.testbit c 7), (Z.testbit c 15), (Z.testbit c 23),
    (Z.testbit c 6), (Z.testbit c 14), (Z.testbit c 22); simpl; lia.
Qed.

(** Within the bounds [lcd_pset] accepts, [(x+y*512)/2] is computed without
    overflow and rounds down. *)
Lemma lcd_pset_index_div (x y : Z) :
  0 <= x <= 480 -> 0 <= y <= 320 ->
  lcd_pset_index x y = (x + y * 512) / 2 /\
  0 <= x + y * 512 <= INT_MAX.
Proof.
  intros Hx Hy. unfold lcd_pset_index, INT_MAX.
  rewrite Z.quot_div_nonneg by lia. lia.
Qed.

(** Two pixels side by side, the left one at an even [x], share a byte. *)
Lemma lcd_pset_index_pair (x y : Z) :
  0 <= x -> 0 <= y -> Z.even x = true ->
  lcd_pset_index (x + 1) y = lcd_pset_index x y.
Proof.
  intros Hx Hy He. unfold lcd_pset_index.
  rewrite !Z.quot_div_nonneg by lia.
  apply Zeven_bool_iff in He. destruct (Zeven_ex _ He) as [h Hh].
  replace (x + 1 + y * 512) with (1 + (h + y * 256) * 2) by lia.
  replace (x + y * 512) with (0 + (h + y * 256) * 2) by lia.
  rewrite !Z.div_add by lia. reflexivity.
Qed.

End PixelCodec.

(** ** The semantics of runs *)

Section Runs.

Context {Ext : Type}.
Variable collab : forall X, badgeE X -> world Ext -> world Ext * X.

Lemma run_observe {R} (t t' : itree badgeE R) fuel w :
  observe t = observe t' -> run collab fuel w t = run collab fuel w t'.
Proof.
  intros H. destruct fuel as [|f]; simpl; [reflexivity|].
  rewrite H. reflexivity.
Qed.

Lemma run_bind {A B} (k : A -> itree badgeE B) fuel :
  forall (t : itree badgeE A) w,
    run collab fuel w (ITree.bind t k) =
    match run collab fuel w t with
    | (l, w1, Some (r, f1)) =>
        let '(l2, w2, o) := run collab f1 w1 (k r) in (l ++ l2, w2, o)
    | (l, w1, None) => (l, w1, None)
    end.
Proof.
  induction fuel as [|f IH]; intros t w; [reflexivity|].
  simpl. destruct (observe t) as [r|t'|X e k'] eqn:Ht.
  - change (run collab (S f) w (k r) =
            (let '(l2, w2, o) := run collab (S f) w (k r) in ([] ++ l2, w2, o))).
    destruct (run collab (S f) w (k r)) as [[l2 w2] o]. reflexivity.
  - simpl. apply IH.
  - simpl. destruct (handle collab e w) as [w1 x].
    rewrite IH.
    destruct (run collab f w1 (k' x)) as [[l w2] [[r f1]|]]; [|reflexivity].
    destruct (run collab f1 w2 (k r)) as [[l2 w3] o]. reflexivity.
Qed.

(** The fuel left is no more than the fuel given. *)
Lemma run_left {R} fuel :
  forall (t : itree badgeE R) w l w' r f1,
    run collab fuel w t = (l, w', Some (r, f1)) -> (f1 <= fuel)%nat.
Proof.
  induction fuel as [|f IH]; intros t w l w' r f1 H; [discriminate|].
  simpl in H. destruct (observe t) as [r0|t'|X e k'].
  - inversion H; subst. lia.
  - apply IH in H. lia.
  - destruct (handle collab e w) as [w1 x].
    destruct (run collab f w1 (k' x)) as [[l1 w2] o] eqn:Hk.
    inversion H; subst. apply IH in Hk. lia.
Qed.

(** The log of a run is a prefix of the log of any longer run. *)
Lemma trace_prefix {R} fuel :
  forall (t : itree badgeE R) w d,
  exists l', trace_of collab (fuel + d) w t = trace_of collab fuel w t ++ l'.
Proof.
  unfold trace_of.
  induction fuel as [|f IH]; intros t w d.
  - simpl. eexists. reflexivity.
  - simpl. destruct (observe t) as [r0|t'|X e k'].
    + exists []. reflexivity.
    + apply IH.
    + destruct (handle collab e w) as [w1 x].
      destruct (IH (k' x) w1 d) as [l' Hl'].
      destruct (run collab (f + d) w1 (k' x)) as [[l1 w2] o].
      destruct (run collab f w1 (k' x)) as [[l2 w3] o2].
      simpl in *. exists l'. rewrite Hl'. reflexivity.
Qed.

(** *** Runs that return *)

Lemma completes_ret {R} (r : R) w : completes collab 0 w (Ret r) [] w r.
Proof. intros k. reflexivity. Qed.

Lemma completes_trigger {X} (e : badgeE X) w :
  completes collab 1 w (ITree.trigger e)
    [(Ev e, words e (snd (handle collab e w)))]
    (fst (handle collab e w)) (snd (handle collab e w)).
Proof.
  intros k. simpl. destruct (handle collab e w) as [w1 x]. reflexivity.
Qed.

Lemma completes_bind {A B} (t : itree badgeE A) (k : A -> itree badgeE B)
      s1 s2 w l1 w1 r1 l2 w2 r2 :
  completes collab s1 w t l1 w1 r1 ->
  completes collab s2 w1 (k r1) l2 w2 r2 ->
  completes collab (s1 + s2) w (ITree.bind t k) (l1 ++ l2) w2 r2.
Proof.
  intros H1 H2 d. rewrite run_bind.
  replace (s1 + s2 + S d)%nat with (s1 + S (s2 + d))%nat by lia.
  rewrite H1. replace (S (s2 + d)) with (s2 + S d)%nat by lia.
  rewrite H2. reflexivity.
Qed.

Lemma completes_tau {R} (t : itree badgeE R) s w l w' r :
  completes collab s w t l w' r -> completes collab (S s) w (Tau t) l w' r.
Proof. intros H k. simpl. apply H. Qed.

Lemma iter_observe {I R} (body : I -> itree badgeE (I + R)) (i : I) :
  observe (ITree.iter body i) =
  observe (ITree.bind (body i)
             (fun lr => match lr with
                        | inl i' => Tau (ITree.iter body i')
                        | inr r => Ret r
                        end)).
Proof. reflexivity. Qed.

Lemma completes_observe {R} (t t' : itree badgeE R) s w l w' r :
  observe t = observe t' -> completes collab s w t' l w' r -> completes collab s w t l w' r.
Proof. intros E H k. rewrite (run_observe t t' _ _ E). apply H. Qed.

Lemma completes_iter_again {I R} (body : I -> itree badgeE (I + R))
      i i' s1 s2 w l1 w1 l2 w2 r :
  completes collab s1 w (body i) l1 w1 (inl i') ->
  completes collab s2 w1 (ITree.iter body i') l2 w2 r ->
  completes collab (s1 + S s2) w (ITree.iter body i) (l1 ++ l2) w2 r.
Proof.
  intros H1 H2. eapply completes_observe; [apply iter_observe|].
  eapply completes_bind; [exact H1|]. apply completes_tau, H2.
Qed.

Lemma completes_iter_done {I R} (body : I -> itree badgeE (I + R))
      i s1 w l1 w1 r :
  completes collab s1 w (body i) l1 w1 (inr r) ->
  completes collab s1 w (ITree.iter body i) l1 w1 r.
Proof.
  intros H1. eapply completes_observe; [apply iter_observe|].
  replace s1 with (s1 + 0)%nat by lia. rewrite <- (app_nil_r l1).
  eapply completes_bind; [exact H1|]. apply completes_ret.
Qed.

(** A run that returns, seen through the three projections. *)
Lemma completes_run {R} (t : itree badgeE R) s w l w' r fuel :
  completes collab s w t l w' r -> (s < fuel)%nat ->
  trace_of collab fuel w t = l /\
  world_of collab fuel w t = w' /\
  result_of collab fuel w t = Some r.
Proof.
  intros H Hf. unfold trace_of, world_of, result_of.
  replace fuel with (s + S (fuel - s - 1))%nat by lia.
  rewrite H. auto.
Qed.

(** *** What a tree can log *)

Lemma always_ret {R} Q (r : R) : always collab Q (Ret r).
Proof. intros [|f] w; constructor. Qed.

Lemma always_trigger {X} (Q : entry -> Prop) (e : badgeE X) :
  (forall x, Q (Ev e, words e x)) -> always collab Q (ITree.trigger e).
Proof.
  intros H [|f] w; [constructor|].
  unfold trace_of. simpl.
  destruct (handle collab e w) as [w1 x].
  destruct f; simpl; repeat constructor; apply H.
Qed.

Lemma always_bind {A B} Q (t : itree badgeE A) (k : A -> itree badgeE B) :
  always collab Q t -> (forall r, always collab Q (k r)) -> always collab Q (ITree.bind t k).
Proof.
  intros Ht Hk fuel w. unfold trace_of. rewrite run_bind.
  specialize (Ht fuel w). unfold trace_of in Ht.
  destruct (run collab fuel w t) as [[l w1] [[r f1]|]]; simpl in *; [|exact Ht].
  specialize (Hk r f1 w1). unfold trace_of in Hk.
  destruct (run collab f1 w1 (k r)) as [[l2 w2] o]; simpl in *.
  apply Forall_app; auto.
Qed.

Lemma always_iter {I R} Q (body : I -> itree badgeE (I + R)) :
  (forall i, always collab Q (body i)) -> forall i, always collab Q (ITree.iter body i).
Proof.
  intros Hb i fuel. revert i.
  induction fuel as [fuel IH] using lt_wf_ind.
  intros i w. unfold trace_of.
  rewrite (run_observe _ _ _ _ (iter_observe body i)), run_bind.
  pose proof (Hb i fuel w) as Hl. unfold trace_of in Hl.
  destruct (run collab fuel w (body i)) as [[l w1] [[[i'|r] f1]|]] eqn:Hr;
    simpl in *; [| |exact Hl].
  - apply run_left in Hr.
    destruct f1 as [|f1]; simpl; [rewrite app_nil_r; exact Hl|].
    pose proof (IH f1 ltac:(lia) i' w1) as Hi. unfold trace_of in Hi.
    destruct (run collab f1 w1 (ITree.iter body i')) as [[l2 w2] o]; simpl in *.
    apply Forall_app; auto.
  - destruct f1; simpl; rewrite app_nil_r; exact Hl.
Qed.

Lemma completes_always {R} (t : itree badgeE R) Q s w l w' r :
  completes collab s w t l w' r -> always collab Q t -> Forall Q l.
Proof.
  intros Hc Ha. specialize (Ha (s + S 0)%nat w).
  unfold trace_of in Ha. rewrite (Hc 0%nat) in Ha. exact Ha.
Qed.

(** The log of [t;; k] once [t] has returned. *)
Lemma trace_bind_completes {A B} (t : itree badgeE A) (k : A -> itree badgeE B)
      s w l w1 r d :
  completes collab s w t l w1 r ->
  trace_of collab (s + S d) w (ITree.bind t k)
  = l ++ trace_of collab (S d) w1 (k r).
Proof.
  intros Hc. unfold trace_of. rewrite run_bind, (Hc d).
  destruct (run collab (S d) w1 (k r)) as [[l2 w2] o]. reflexivity.
Qed.

(** *** Counted loops *)

Lemma completes_steps {R} (t : itree badgeE R) s s' w l w' r :
  s = s' -> completes collab s w t l w' r -> completes collab s' w t l w' r.
Proof. intros <-. auto. Qed.

Lemma for_lt_from (n : Z) (body : Z -> itree badgeE unit) sb lb wb :
  n <= INT_MAX ->
  (forall i w, 0 <= i < n -> completes collab sb w (body i) (lb i w) (wb i w) tt) ->
  forall count i w,
    0 <= i -> i + Z.of_nat count = n ->
    completes collab (count * S sb) w
      (ITree.iter
         (fun i => if i <? n
                   then body i;; Ret (inl (int32 (i + 1)))
                   else Ret (inr tt)) i)
      (for_log lb wb count i w) (for_world wb count i w) tt.
Proof.
  intros Hn Hb. induction count as [|count IH]; intros i w Hi Hc.
  - apply completes_iter_done. simpl.
    destruct (Z.ltb_spec i n); [lia|]. apply completes_ret.
  - eapply completes_steps;
      [|eapply completes_iter_again; [|apply (IH (i + 1)); lia]].
    + instantiate (1 := sb). simpl. lia.
    + simpl. destruct (Z.ltb_spec i n); [|lia].
      rewrite int32_small by (unfold INT_MIN, INT_MAX in *; lia).
      replace sb with (sb + 0)%nat at 1 by lia.
      rewrite <- (app_nil_r (lb i w)).
      eapply completes_bind; [apply Hb; lia|]. apply completes_ret.
Qed.

Lemma for_lt_completes (n : Z) (body : Z -> itree badgeE unit) sb lb wb w :
  0 <= n <= INT_MAX ->
  (forall i w, 0 <= i < n -> completes collab sb w (body i) (lb i w) (wb i w) tt) ->
  completes collab (Z.to_nat n * S sb) w (for_lt n body)
    (for_log lb wb (Z.to_nat n) 0 w) (for_world wb (Z.to_nat n) 0 w) tt.
Proof.
  intros Hn Hb. unfold for_lt. apply for_lt_from; auto; lia.
Qed.

Lemma always_for_lt Q (n : Z) (body : Z -> itree badgeE unit) :
  (forall i, always collab Q (body i)) -> always collab Q (for_lt n body).
Proof.
  intros Hb. unfold for_lt. apply always_iter. intros i.
  destruct (i <? n); [|apply always_ret].
  apply always_bind; [apply Hb|]. intros _. apply always_ret.
Qed.

Lemma for_log_const (l : list entry) (wb : Z -> world Ext -> world Ext) count :
  forall i w, for_log (fun _ _ => l) wb count i w = List.concat (repeat l count).
Proof.
  induction count as [|count IH]; intros i w; simpl; [reflexivity|].
  rewrite IH. reflexivity.
Qed.

Lemma for_log_length lb (wb : Z -> world Ext -> world Ext) m count :
  (forall i w, List.length (lb i w) = m) ->
  forall i w, List.length (for_log lb wb count i w) = (count * m)%nat.
Proof.
  intros Hl. induction count as [|count IH]; intros i w; simpl; [reflexivity|].
  rewrite length_app, Hl, IH. reflexivity.
Qed.

End Runs.

(** ** Runs of the pixel codec *)

Section PixelRuns.

Context {Ext : Type}.
Variable collab : forall X, badgeE X -> world Ext -> world Ext * X.

Lemma lcd_pset_skips (x y c : Z) (w : world Ext) :
  ~ lcd_pset_accepts w x y ->
  completes collab 1 w (lcd_pset x y c) [(Ev get_lcdfb, [lcdfb w])] w tt.
Proof.
  intros H k. unfold lcd_pset. simpl.
  destruct (Z.eqb_spec (lcdfb w) NULL) as [E|E]; [reflexivity|].
  destruct (Z.ltb_spec x 0); [reflexivity|].
  destruct (Z.gtb_spec x 480); [reflexivity|].
  destruct (Z.ltb_spec y 0); [reflexivity|].
  destruct (Z.gtb_spec y 320); [reflexivity|].
  exfalso. apply H. unfold lcd_pset_accepts. lia.
Qed.

Lemma lcd_pset_draws (x y c : Z) (w : world Ext) :
  lcd_pset_accepts w x y ->
  let a := lcdfb w + lcd_pset_index x y in
  let v := lcd_pset_o x (ram w a) (lcd_pset_n c) in
  completes collab 5 w (lcd_pset x y c)
    [(Ev get_lcdfb, [lcdfb w]);
     (Ev get_lcdfb, [lcdfb w]);
     (Ev (mem_load8 a), [ram w a]);
     (Ev get_lcdfb, [lcdfb w]);
     (Ev (mem_store8 a v), [])]
    (mkWorld (lcdfb w) (upd (ram w) a v) (ext w)) tt.
Proof.
  intros (Hfb & Hx & Hy) a v k. unfold lcd_pset. simpl.
  destruct (Z.eqb_spec (lcdfb w) NULL) as [E|E]; [contradiction|].
  destruct (Z.ltb_spec x 0); [lia|].
  destruct (Z.gtb_spec x 480); [lia|].
  destruct (Z.ltb_spec y 0); [lia|].
  destruct (Z.gtb_spec y 320); [lia|].
  reflexivity.
Qed.

Lemma lcd_pset_accepts_dec (w : world Ext) (x y : Z) :
  {lcd_pset_accepts w x y} + {~ lcd_pset_accepts w x y}.
Proof.
  unfold lcd_pset_accepts.
  destruct (Z.eq_dec (lcdfb w) NULL); [right; tauto|].
  destruct (Z_le_dec 0 x); [|right; tauto].
  destruct (Z_le_dec x 480); [|right; tauto].
  destruct (Z_le_dec 0 y); [|right; tauto].
  destruct (Z_le_dec y 320); [|right; tauto].
  left. tauto.
Qed.

(** Storing again what [lcd_pset] just stored changes nothing. *)
Lemma lcd_pset_o_again (x o c : Z) :
  lcd_pset_o x (lcd_pset_o x o (lcd_pset_n c)) (lcd_pset_n c)
  = lcd_pset_o x o (lcd_pset_n c).
Proof.
  pose proof (lcd_pset_n_range c) as Hn. unfold lcd_pset_o.
  destruct (Z.land x 1 =? 0).
  - destruct (even_nibble o _ Hn) as (E1 & _ & E3).
    rewrite E1, E3. exact E1.
  - destruct (odd_nibble o _ Hn) as (E1 & _ & E3).
    rewrite E1, E3. exact E1.
Qed.

(** **** C3 *)

(** C3, amended. For every color [c], bit 2 of the nibble [n] that
    [lcd_pset] computes is set exactly when the top-used bit of blue is
    (bit 7 of [c]), bit 1 exactly when the top-used bit of green is
    (bit 15), bit 0 exactly when the top-used bit of red is (bit 23), and
    bit 3 exactly when the secondary bit of one of the three channels is
    (bits 6, 14 and 22); [n] has no other bit. Red and blue stand where the
    specification has blue and red. *)
Theorem lcd_pset_n_channel_bits (c : Z) :
  let n := lcd_pset_n c in
  (Z.testbit n 2 = top_used_bit (color_blue c) /\
   Z.testbit n 1 = top_used_bit (color_green c) /\
   Z.testbit n 0 = top_used_bit (color_red c) /\
   Z.testbit n 3 = (secondary_bit (color_blue c) || secondary_bit (color_green c)
                    || secondary_bit (color_red c))) /\
  (Z.testbit n 2 = Z.testbit c 7 /\
   Z.testbit n 1 = Z.testbit c 15 /\
   Z.testbit n 0 = Z.testbit c 23 /\
   Z.testbit n 3 = (Z.testbit c 6 || Z.testbit c 14 || Z.testbit c 22)) /\
  0 <= n < 16.
Proof.
  intros n. subst n.
  assert (Hb : forall k, 0 <= k < 8 ->
                 Z.testbit (color_blue c) k = Z.testbit c k).
  { intros k Hk. unfold color_blue. change 0xFF with (Z.ones 8).
    rewrite Z.land_spec, Z.ones_spec_low by lia. apply andb_true_r. }
  assert (Hg : forall k, 0 <= k < 8 ->
                 Z.testbit (color_green c) k = Z.testbit c (k + 8)).
  { intros k Hk. unfold color_green. change 0xFF with (Z.ones 8).
    rewrite Z.land_spec, Z.ones_spec_low, Z.shiftr_spec by lia.
    apply andb_true_r. }
  assert (Hr : forall k, 0 <= k < 8 ->
                 Z.testbit (color_red c) k = Z.testbit c (k + 16)).
  { intros k Hk. unfold color_red. change 0xFF with (Z.ones 8).
    rewrite Z.land_spec, Z.ones_spec_low, Z.shiftr_spec by lia.
    apply andb_true_r. }
  unfold top_used_bit, secondary_bit.
  rewrite !Hb, !Hg, !Hr by lia.
  change (7 + 8) with 15. change (7 + 16) with 23.
  change (6 + 8) with 14. change (6 + 16) with 22.
  assert (H : Z.testbit (lcd_pset_n c) 2 = Z.testbit c 7 /\
              Z.testbit (lcd_pset_n c) 1 = Z.testbit c 15 /\
              Z.testbit (lcd_pset_n c) 0 = Z.testbit c 23 /\
              Z.testbit (lcd_pset_n c) 3
              = (Z.testbit c 6 || Z.testbit c 14 || Z.testbit c 22)).
  { rewrite lcd_pset_n_bits.
    destruct (Z.testbit c 7), (Z.testbit c 15), (Z.testbit c 23),
      (Z.testbit c 6), (Z.testbit c 14), (Z.testbit c 22);
      repeat split; reflexivity. }
  split; [exact H|]. split; [exact H|]. apply lcd_pset_n_range.
Qed.

(** **** C6 *)

(** C6. When [lcdfb] is null, or [x] is outside [0, 480], or [y] is outside
    [0, 320], [lcd_pset] returns having done nothing but read [lcdfb]: its
    log holds no write and the world is the one it started from. *)
Theorem lcd_pset_out_of_bounds_is_noop (x y c : Z) (w : world Ext) (fuel : nat) :
  lcdfb w = NULL \/ x < 0 \/ 480 < x \/ y < 0 \/ 320 < y ->
  (1 < fuel)%nat ->
  result_of collab fuel w (lcd_pset x y c) = Some tt /\
  world_of collab fuel w (lcd_pset x y c) = w /\
  trace_of collab fuel w (lcd_pset x y c) = [(Ev get_lcdfb, [lcdfb w])] /\
  filter is_write (trace_of collab fuel w (lcd_pset x y c)) = [].
Proof.
  intros H Hf.
  assert (Hn : ~ lcd_pset_accepts w x y) by (unfold lcd_pset_accepts; lia).
  destruct (completes_run collab _ _ _ _ _ _ fuel (lcd_pset_skips x y c w Hn) Hf)
    as (Ht & Hw & Hr).
  rewrite Ht. auto.
Qed.

(** **** C2 *)

(** C2. With [lcdfb] allocated, [0 <= x <= 480] and [0 <= y <= 320],
    [lcd_pset] performs exactly one write, a store to the byte at index
    [(x + y*512)/2] of [lcdfb]; no other byte changes; for an even [x] the
    low nibble of that byte becomes [n] and its high nibble is kept, for an
    odd [x] the high nibble becomes [n] and the low nibble is kept; and
    after writing the pixels [(x, y)] and [(x+1, y)], [x] even and both
    within the bounds, in either order, the byte holds the first color's
    nibble below and the second color's above. *)
Theorem lcd_pset_writes_one_nibble (x y c : Z) (w : world Ext) (fuel : nat) :
  lcdfb w <> NULL -> 0 <= x <= 480 -> 0 <= y <= 320 -> (10 < fuel)%nat ->
  let a := lcdfb w + (x + y * 512) / 2 in
  let old := ram w a in
  let n := lcd_pset_n c in
  let w' := world_of collab fuel w (lcd_pset x y c) in
  let v := ram w' a in
  result_of collab fuel w (lcd_pset x y c) = Some tt /\
  filter is_write (trace_of collab fuel w (lcd_pset x y c))
  = [(Ev (mem_store8 a v), [])] /\
  (forall a', a' <> a -> ram w' a' = ram w a') /\
  lcdfb w' = lcdfb w /\ ext w' = ext w /\
  0 <= v < 256 /\
  (Z.even x = true -> Z.land v 0xf = n /\ Z.land v 0xf0 = Z.land old 0xf0) /\
  (Z.odd x = true -> Z.shiftr v 4 = n /\ Z.land v 0xf = Z.land old 0xf) /\
  (Z.even x = true -> x + 1 <= 480 ->
   forall c',
     let w2 := world_of collab fuel w (lcd_pset x y c;; lcd_pset (x + 1) y c') in
     let w3 := world_of collab fuel w (lcd_pset (x + 1) y c';; lcd_pset x y c) in
     Z.land (ram w2 a) 0xf = n /\
     Z.shiftr (ram w2 a) 4 = lcd_pset_n c' /\
     ram w3 a = ram w2 a).
Proof.
  intros Hfb Hx Hy Hf a old n w' v.
  destruct (lcd_pset_index_div x y Hx Hy) as [Hi _].
  assert (Ha : lcd_pset_accepts w x y) by (unfold lcd_pset_accepts; auto).
  pose proof (lcd_pset_draws x y c w Ha) as Hd. cbv zeta in Hd.
  rewrite Hi in Hd. fold a old n in Hd.
  destruct (completes_run collab _ _ _ _ _ _ fuel Hd ltac:(lia)) as (Ht & Hw & Hr).
  assert (Hv : v = lcd_pset_o x old n).
  { unfold v, w'. rewrite Hw. simpl. unfold upd. rewrite Z.eqb_refl. reflexivity. }
  pose proof (lcd_pset_n_range c) as Hn. fold n in Hn.
  split; [exact Hr|]. split; [rewrite Ht, Hv; reflexivity|].
  split; [|split; [|split]]; try (unfold w'; rewrite Hw; reflexivity).
  { intros a' Hne. unfold w'. rewrite Hw. simpl. unfold upd.
    destruct (Z.eqb_spec a' a); [contradiction|reflexivity]. }
  split; [|split; [|split]].
  - rewrite Hv. unfold lcd_pset_o, wrap8.
    destruct (Z.land x 1 =? 0); apply Z.mod_pos_bound; lia.
  - intros He. rewrite Hv. unfold lcd_pset_o. rewrite land_1_eqb, He.
    destruct (even_nibble old n Hn) as (E1 & E2 & E3). rewrite E1. auto.
  - intros Ho. rewrite Hv. unfold lcd_pset_o. rewrite land_1_eqb.
    rewrite <- Z.negb_odd, Ho. change (negb true) with false. cbv iota.
    destruct (odd_nibble old n Hn) as (E1 & E2 & E3). rewrite E1. auto.
  - intros He Hx1 c'.
    pose proof (lcd_pset_n_range c') as Hn'.
    assert (Hi1 : lcd_pset_index (x + 1) y = (x + y * 512) / 2).
    { rewrite lcd_pset_index_pair by (auto; lia). exact Hi. }
    destruct (lcd_pset_o_pair x old n (lcd_pset_n c') He Hn Hn') as [P1 P2].
    destruct (nibble_pair n (lcd_pset_n c') Hn Hn') as (N1 & N2 & _).
    (* left pixel, then right pixel *)
    assert (Ha2 : lcd_pset_accepts
                    (mkWorld (lcdfb w) (upd (ram w) a (lcd_pset_o x old n)) (ext w))
                    (x + 1) y) by (unfold lcd_pset_accepts; simpl; lia).
    pose proof (lcd_pset_draws (x + 1) y c' _ Ha2) as Hd2. cbv zeta in Hd2.
    simpl lcdfb in Hd2. simpl ram in Hd2. simpl ext in Hd2.
    rewrite Hi1 in Hd2. fold a in Hd2.
    pose proof (completes_bind collab _ (fun _ => lcd_pset (x + 1) y c')
                  _ _ _ _ _ _ _ _ _ Hd Hd2) as H12.
    destruct (completes_run collab _ _ _ _ _ _ fuel H12 ltac:(lia)) as (_ & Hw2 & _).
    (* right pixel, then left pixel *)
    assert (Ha3 : lcd_pset_accepts w (x + 1) y) by (unfold lcd_pset_accepts; lia).
    pose proof (lcd_pset_draws (x + 1) y c' w Ha3) as Hd3. cbv zeta in Hd3.
    rewrite Hi1 in Hd3. fold a old in Hd3.
    assert (Ha4 : lcd_pset_accepts
                    (mkWorld (lcdfb w)
                       (upd (ram w) a (lcd_pset_o (x + 1) old (lcd_pset_n c'))) (ext w))
                    x y) by (unfold lcd_pset_accepts; simpl; lia).
    pose proof (lcd_pset_draws x y c _ Ha4) as Hd4. cbv zeta in Hd4.
    simpl lcdfb in Hd4. simpl ram in Hd4. simpl ext in Hd4.
    rewrite Hi in Hd4. fold a n in Hd4.
    pose proof (completes_bind collab _ (fun _ => lcd_pset x y c)
                  _ _ _ _ _ _ _ _ _ Hd3 Hd4) as H34.
    destruct (completes_run collab _ _ _ _ _ _ fuel H34 ltac:(lia)) as (_ & Hw3 & _).
    cbv zeta. rewrite Hw2, Hw3. simpl. unfold upd. rewrite !Z.eqb_refl.
    rewrite P1, P2. auto.
Qed.

(** **** C4 *)

(** C4. With [lcdfb] allocated and [0 <= x <= 480], [lcd_pset] called with
    [y = 320] passes its three guards, and the byte it then loads and stores
    has the index [(x + 320*512)/2], which is at least [320*512/2], the
    number of bytes [main] allocates for [lcdfb]: the access lies past the
    end of the buffer. *)
Theorem lcd_pset_row_320_outside_buffer (x c : Z) (w : world Ext) (fuel : nat) :
  lcdfb w <> NULL -> 0 <= x <= 480 -> (5 < fuel)%nat ->
  let i := (x + 320 * 512) / 2 in
  let a := lcdfb w + i in
  lcd_pset_accepts w x 320 /\
  lcdfb_size = 320 * 512 / 2 /\
  lcdfb_size <= i /\
  lcdfb w + lcdfb_size <= a /\
  exists v,
    trace_of collab fuel w (lcd_pset x 320 c)
    = [(Ev get_lcdfb, [lcdfb w]);
       (Ev get_lcdfb, [lcdfb w]);
       (Ev (mem_load8 a), [ram w a]);
       (Ev get_lcdfb, [lcdfb w]);
       (Ev (mem_store8 a v), [])] /\
    ram (world_of collab fuel w (lcd_pset x 320 c)) a = v.
Proof.
  intros Hfb Hx Hf i a.
  assert (Ha : lcd_pset_accepts w x 320) by (unfold lcd_pset_accepts; lia).
  destruct (lcd_pset_index_div x 320 Hx ltac:(lia)) as [Hi _].
  pose proof (lcd_pset_draws x 320 c w Ha) as Hd. cbv zeta in Hd.
  rewrite Hi in Hd. fold i a in Hd.
  destruct (completes_run collab _ _ _ _ _ _ fuel Hd Hf) as (Ht & Hw & _).
  assert (Hs : lcdfb_size <= i).
  { unfold lcdfb_size, i. apply Z.div_le_lower_bound; [lia|].
    change (Z.quot (320 * 512) 2) with 81920. lia. }
  split; [exact Ha|]. split; [reflexivity|]. split; [exact Hs|].
  split; [unfold a; lia|].
  eexists. split; [exact Ht|].
  rewrite Hw. simpl. unfold upd. rewrite Z.eqb_refl. reflexivity.
Qed.

(** **** C10 *)

(** C10. For every [x], [y], [c] and world, two calls of [lcd_pset x y c] in
    a row leave [lcdfb], every byte of RAM and the collaborators' state as
    one call leaves them. *)
Theorem lcd_pset_idempotent (x y c : Z) (w : world Ext) (fuel : nat) :
  (10 < fuel)%nat ->
  let w1 := world_of collab fuel w (lcd_pset x y c) in
  let w2 := world_of collab fuel w (lcd_pset x y c;; lcd_pset x y c) in
  result_of collab fuel w (lcd_pset x y c;; lcd_pset x y c) = Some tt /\
  lcdfb w2 = lcdfb w1 /\ (forall a, ram w2 a = ram w1 a) /\ ext w2 = ext w1.
Proof.
  intros Hf w1 w2.
  destruct (lcd_pset_accepts_dec w x y) as [Ha|Hn].
  - pose proof (lcd_pset_draws x y c w Ha) as Hd. cbv zeta in Hd.
    set (a := lcdfb w + lcd_pset_index x y) in *.
    set (v := lcd_pset_o x (ram w a) (lcd_pset_n c)) in *.
    assert (Ha' : lcd_pset_accepts (mkWorld (lcdfb w) (upd (ram w) a v) (ext w)) x y)
      by exact Ha.
    pose proof (lcd_pset_draws x y c _ Ha') as Hd'. cbv zeta in Hd'.
    simpl lcdfb in Hd'. simpl ram in Hd'. simpl ext in Hd'. fold a in Hd'.
    pose proof (completes_bind collab _ (fun _ => lcd_pset x y c)
                  _ _ _ _ _ _ _ _ _ Hd Hd') as H2.
    destruct (completes_run collab _ _ _ _ _ _ fuel Hd ltac:(lia)) as (_ & Hw1 & _).
    destruct (completes_run collab _ _ _ _ _ _ fuel H2 ltac:(lia)) as (_ & Hw2 & Hr).
    unfold w1, w2. rewrite Hw1, Hw2. simpl.
    split; [exact Hr|]. split; [reflexivity|]. split; [|reflexivity].
    intros a'. unfold upd. rewrite Z.eqb_refl.
    destruct (a' =? a); [|reflexivity].
    apply lcd_pset_o_again.
  - pose proof (lcd_pset_skips x y c w Hn) as Hd.
    pose proof (completes_bind collab _ (fun _ => lcd_pset x y c)
                  _ _ _ _ _ _ _ _ _ Hd Hd) as H2.
    destruct (completes_run collab _ _ _ _ _ _ fuel Hd ltac:(lia)) as (_ & Hw1 & _).
    destruct (completes_run collab _ _ _ _ _ _ fuel H2 ltac:(lia)) as (_ & Hw2 & Hr).
    unfold w1, w2. rewrite Hw1, Hw2. auto.
Qed.

End PixelRuns.

(** ** Runs of the cache flush *)

Section FlushRuns.

Context {Ext : Type}.
Variable pf : platform.
Variable collab : forall X, badgeE X -> world Ext -> world Ext * X.

Lemma cache_flush_completes (addr_start addr_end : Z) (w : world Ext) :
  let p := cache_flush_p pf addr_start in
  let v := wrap32 (wrap32 addr_end - MACH_RAM_START pf) in
  completes collab 1 w (cache_flush pf addr_start addr_end)
    [(Ev (mem_store32 p v), [])]
    (fst (collab _ (mem_store32 p v) w)) tt.
Proof.
  intros p v k. unfold cache_flush. fold p v. simpl.
  destruct (collab unit (mem_store32 p v) w) as [w1 []]. reflexivity.
Qed.

(** **** C8 *)

(** C8. For every region from [addr_start] to [addr_end], [cache_flush]
    performs exactly one operation, a 32-bit store: the location stored to
    is [addr_start] with its two low bits cleared, minus [MACH_RAM_START],
    plus [MACH_FLUSH_REGION], and the value stored is [addr_end] minus
    [MACH_RAM_START], both as [uint32_t]; for an [addr_end] at or above a
    nonnegative [MACH_RAM_START] the value is the plain difference. *)
Theorem cache_flush_one_store (addr_start addr_end : Z) (w : world Ext) (fuel : nat) :
  0 <= addr_start < 2 ^ 32 -> 0 <= addr_end < 2 ^ 32 -> (1 < fuel)%nat ->
  let target :=
    wrap32 ((addr_start - addr_start mod 4) - MACH_RAM_START pf
            + MACH_FLUSH_REGION pf) in
  let value := wrap32 (addr_end - MACH_RAM_START pf) in
  trace_of collab fuel w (cache_flush pf addr_start addr_end)
  = [(Ev (mem_store32 target value), [])] /\
  result_of collab fuel w (cache_flush pf addr_start addr_end) = Some tt /\
  (0 <= MACH_RAM_START pf <= addr_end -> value = addr_end - MACH_RAM_START pf).
Proof.
  intros Hs He Hf target value.
  pose proof (cache_flush_completes addr_start addr_end w) as Hc. cbv zeta in Hc.
  unfold cache_flush_p in Hc.
  rewrite land_not3, (wrap32_small addr_end) in Hc by assumption.
  fold target value in Hc.
  destruct (completes_run collab _ _ _ _ _ _ fuel Hc Hf) as (Ht & _ & Hr).
  split; [exact Ht|]. split; [exact Hr|].
  intros Hram. unfold value. apply wrap32_small. lia.
Qed.

End FlushRuns.

(** ** Runs of [main] *)

Section MainRuns.

Context {Ext : Type}.
Variable pf : platform.
Variable collab : forall X, badgeE X -> world Ext -> world Ext * X.

Lemma completes_eq {R} (t : itree badgeE R) s s' w l l' w1 w1' r r' :
  completes collab s w t l w1 r ->
  s = s' -> l = l' -> w1 = w1' -> r = r' ->
  completes collab s' w t l' w1' r'.
Proof. intros H <- <- <- <-. exact H. Qed.

Lemma poll_round_completes (w : world Ext) :
  completes collab 2 w (ITree.trigger usb_poll;; ITree.trigger tud_task)
    poll_round (poll_round_world collab 0 w) tt.
Proof.
  intros k. simpl. unfold poll_round_world, after. simpl.
  destruct (collab unit usb_poll w) as [w1 []]. simpl.
  destruct (collab unit tud_task w1) as [w2 []]. reflexivity.
Qed.

Lemma poll_transport_completes (w : world Ext) :
  completes collab 1500 w poll_transport
    (List.concat (repeat poll_round 500))
    (for_world (poll_round_world collab) 500 0 w) tt.
Proof.
  unfold poll_transport.
  assert (H : completes collab (Z.to_nat 500 * 3) w
                (for_lt 500 (fun _ => ITree.trigger usb_poll;; ITree.trigger tud_task))
                (for_log (fun _ _ => poll_round) (poll_round_world collab)
                   (Z.to_nat 500) 0 w)
                (for_world (poll_round_world collab) (Z.to_nat 500) 0 w) tt).
  { apply for_lt_completes; [unfold INT_MAX; lia|].
    intros i w' _. apply poll_round_completes. }
  rewrite for_log_const in H. exact H.
Qed.

Lemma diag_iteration_completes (p : Z) (w : world Ext) :
  let p' := int32 (p + 1) in
  let w2 := drawn_world pf collab p w in
  let fb := lcdfb w2 in
  let store :=
    mem_store32 (cache_flush_p pf fb)
      (wrap32 (wrap32 (fb + Z.quot (320 * 480) 2) - MACH_RAM_START pf)) in
  completes collab 1505 w (diag_iteration pf p)
    ([(Ev (UG_SetForecolor (C_RED pf)), []);
      (Ev (UG_PutString 48 64 (sprintf_d p')), []);
      (Ev get_lcdfb, [fb]);
      (Ev get_lcdfb, [fb]);
      (Ev store, [])] ++ List.concat (repeat poll_round 500))
    (for_world (poll_round_world collab) 500 0 (after collab store w2)) p'.
Proof.
  intros p' w2 fb store. unfold diag_iteration. fold p'.
  eapply completes_eq.
  - eapply completes_bind; [apply completes_trigger|].
    eapply completes_bind; [apply completes_trigger|].
    eapply completes_bind; [apply completes_trigger|].
    eapply completes_bind; [apply completes_trigger|].
    eapply completes_bind; [apply cache_flush_completes|].
    eapply completes_bind; [apply poll_transport_completes|].
    apply completes_ret.
  - reflexivity.
  - rewrite app_nil_r. reflexivity.
  - reflexivity.
  - reflexivity.
Qed.

Lemma sprintf_d_value (z : Z) : decimal_value (sprintf_d z) = Some z.
Proof.
  unfold decimal_value, sprintf_d. rewrite NilZero.isi.
  - simpl. rewrite DecimalZ.of_to. reflexivity.
  - destruct z; simpl; try discriminate.
    intros H. injection H as H. revert H. apply Unsigned.to_uint_nonnil.
  - destruct z; simpl; try discriminate.
    intros H. injection H as H. revert H. apply Unsigned.to_uint_nonnil.
Qed.

(** An iteration of [while(1)] and then the loop again, from the next value
    of [p]. *)
Lemma diag_loop_step (p : Z) (w : world Ext) (fuel : nat) :
  let p' := int32 (p + 1) in
  let w2 := drawn_world pf collab p w in
  let store :=
    mem_store32 (cache_flush_p pf (lcdfb w2))
      (wrap32 (wrap32 (lcdfb w2 + Z.quot (320 * 480) 2) - MACH_RAM_START pf)) in
  let w' := for_world (poll_round_world collab) 500 0 (after collab store w2) in
  trace_of collab (1506 + fuel) w (diag_loop pf p)
  = trace_of collab 1506 w (diag_iteration pf p)
    ++ trace_of collab fuel w' (diag_loop pf p').
Proof.
  intros p' w2 store w'.
  pose proof (diag_iteration_completes p w) as Hd. cbv zeta in Hd.
  fold p' w2 store w' in Hd.
  destruct (completes_run collab _ _ _ _ _ _ 1506 Hd ltac:(lia)) as (Ht & _ & _).
  rewrite Ht. unfold trace_of, diag_loop.
  rewrite (run_observe collab _ _ _ _ (iter_observe _ p)).
  rewrite !run_bind.
  replace (1506 + fuel)%nat with (1505 + S fuel)%nat by lia.
  rewrite Hd. cbn [run observe _observe].
  rewrite app_nil_r.
  destruct (run collab fuel w' _) as [[l w3] o]. reflexivity.
Qed.

(** The flush an iteration requests: from [lcdfb] to [lcdfb + 320*480/2]. *)
Lemma diag_iteration_flush (p : Z) (w : world Ext) (fuel : nat) :
  (1505 < fuel)%nat ->
  let fb := lcdfb (drawn_world pf collab p w) in
  nth_error (trace_of collab fuel w (diag_iteration pf p)) 4
  = Some (Ev (mem_store32 (cache_flush_p pf fb)
                (wrap32 (fb + 76800 - MACH_RAM_START pf))), []) /\
  filter is_write (trace_of collab fuel w (diag_iteration pf p))
  = [(Ev (mem_store32 (cache_flush_p pf fb)
            (wrap32 (fb + 76800 - MACH_RAM_START pf))), [])] /\
  fb + 76800 = fb + lcdfb_size - 5120.
Proof.
  intros Hf fb.
  pose proof (diag_iteration_completes p w) as Hd. cbv zeta in Hd. fold fb in Hd.
  destruct (completes_run collab _ _ _ _ _ _ fuel Hd Hf) as (Ht & _ & _).
  rewrite Ht, wrap32_sub_l. split; [reflexivity|].
  split; [|change lcdfb_size with 81920; lia].
  rewrite filter_app. simpl.
  replace (filter is_write (List.concat (repeat poll_round 500))) with (@nil entry);
    [reflexivity|].
  symmetry. generalize 500%nat. intros m.
  induction m as [|m IH]; simpl; auto.
Qed.

(** **** C9 *)

(** C9, amended. For any value [p] of the counter other than [INT_MAX], an
    iteration of [while(1)] leaves the counter at [p + 1], draws the decimal
    numeral of [p + 1] at (48, 64), requests a flush and then makes 500
    rounds of the two polling calls [usb_poll], [tud_task]; the loop then
    goes on from [p + 1], so the same 1000 calls lie between two draws that
    follow each other. *)
Theorem diag_iteration_counts_draws_polls (p : Z) (w : world Ext) (fuel : nat) :
  INT_MIN <= p < INT_MAX -> (1505 < fuel)%nat ->
  let p' := p + 1 in
  exists fb v w',
    result_of collab fuel w (diag_iteration pf p) = Some p' /\
    trace_of collab fuel w (diag_iteration pf p)
    = [(Ev (UG_SetForecolor (C_RED pf)), []);
       (Ev (UG_PutString 48 64 (sprintf_d p')), []);
       (Ev get_lcdfb, [fb]);
       (Ev get_lcdfb, [fb]);
       (Ev (mem_store32 (cache_flush_p pf fb) v), [])]
      ++ List.concat (repeat [(Ev usb_poll, []); (Ev tud_task, [])] 500) /\
    decimal_value (sprintf_d p') = Some p' /\
    forall more,
      trace_of collab (1506 + more) w (diag_loop pf p)
      = trace_of collab 1506 w (diag_iteration pf p)
        ++ trace_of collab more w' (diag_loop pf p').
Proof.
  intros Hp Hf p'.
  assert (Ep : int32 (p + 1) = p').
  { apply int32_small. unfold INT_MIN, INT_MAX in *. lia. }
  pose proof (diag_iteration_completes p w) as Hd. cbv zeta in Hd.
  rewrite Ep in Hd.
  destruct (completes_run collab _ _ _ _ _ _ fuel Hd Hf) as (Ht & _ & Hr).
  do 3 eexists. split; [exact Hr|]. split; [exact Ht|].
  split; [apply sprintf_d_value|].
  intros more. rewrite diag_loop_step, Ep. reflexivity.
Qed.

(** *** The whole of [main] *)

Lemma boot_quiet : always collab quiet (boot pf).
Proof.
  unfold boot.
  repeat first
    [ apply always_trigger; intros; split; reflexivity
    | apply always_ret
    | apply always_for_lt; intros
    | apply always_bind; [|intros] ].
Qed.

Lemma diag_never_enters (p0 : Z) :
  always collab (fun o => maincall_of o = None) (diag_setup pf;; diag_loop pf p0).
Proof.
  unfold diag_setup, diag_loop, diag_iteration, poll_transport, cache_flush.
  repeat first
    [ apply always_trigger; intros; reflexivity
    | apply always_ret
    | apply always_for_lt; intros
    | apply always_iter; intros
    | apply always_bind; [|intros] ].
Qed.

Lemma boot_completes (w : world Ext) :
  exists l w', completes collab 64 w (boot pf) l w' tt /\ List.length l = 48%nat.
Proof.
  unfold boot. do 2 eexists. split.
  - eapply completes_eq.
    + do 16 (eapply completes_bind; [apply completes_trigger|]).
      apply for_lt_completes; [unfold INT_MAX; lia|].
      intros i w' _.
      eapply completes_eq;
        [ eapply completes_bind; [apply completes_trigger|];
          apply completes_trigger
        | reflexivity
        | instantiate (1 := fun i w' => _); reflexivity
        | instantiate (1 := fun i w' => _); reflexivity
        | destruct (snd _); reflexivity ].
    + reflexivity.
    + reflexivity.
    + reflexivity.
    + reflexivity.
  - rewrite !length_app, (for_log_length _ _ 2); reflexivity.
Qed.

Lemma handoff_completes (w : world Ext) :
  let r := snd (collab _ (load_new_app "autoexec.elf" 0) w) in
  exists w',
    completes collab 5 w handoff (handoff_log (fst r) (snd r)) w' tt.
Proof.
  intros r. subst r. unfold handoff.
  destruct (collab _ (load_new_app "autoexec.elf" 0) w) as [w1 [la m]] eqn:E.
  eexists. eapply completes_eq.
  - eapply completes_bind; [apply completes_trigger|].
    cbn [handle]. rewrite E. cbn [fst snd].
    do 3 (eapply completes_bind; [apply completes_trigger|]).
    apply completes_trigger.
  - reflexivity.
  - cbn [handle words]. rewrite E. reflexivity.
  - reflexivity.
  - destruct (snd _). reflexivity.
Qed.

(** A run of [main] that is long enough: the log of the bring-up, the log
    of the handoff, and what follows. *)
Lemma main_long_run (p0 : Z) (w : world Ext) (d : nat) :
  exists lb la m rest,
    trace_of collab (70 + d) w (main pf p0) = lb ++ handoff_log la m ++ rest /\
    List.length lb = 48%nat /\
    Forall quiet lb /\
    Forall (fun o => maincall_of o = None) rest.
Proof.
  destruct (boot_completes w) as (lb & wb & Hb & Hlen).
  destruct (handoff_completes wb) as (wh & Hh). cbv zeta in Hh.
  set (r := snd (collab _ (load_new_app "autoexec.elf" 0) wb)) in *.
  exists lb, (fst r), (snd r),
    (trace_of collab (S d) wh (diag_setup pf;; diag_loop pf p0)).
  split; [|split; [exact Hlen|split]].
  - unfold main.
    replace (70 + d)%nat with (64 + S (5 + d))%nat by lia.
    rewrite (trace_bind_completes collab _ _ _ _ _ _ _ _ Hb).
    replace (S (5 + d)) with (5 + S d)%nat by lia.
    rewrite (trace_bind_completes collab _ _ _ _ _ _ _ _ Hh).
    reflexivity.
  - exact (completes_always collab _ _ _ _ _ _ _ Hb boot_quiet).
  - exact (diag_never_enters p0 (S d) wh).
Qed.

(** Every run of [main] is the beginning of a long one. *)
Lemma main_any_run (p0 : Z) (w : world Ext) (fuel : nat) :
  exists lb la m rest more,
    trace_of collab fuel w (main pf p0) ++ more = lb ++ handoff_log la m ++ rest /\
    List.length lb = 48%nat /\
    Forall quiet lb /\
    Forall (fun o => maincall_of o = None) rest.
Proof.
  destruct (main_long_run p0 w fuel) as (lb & la & m & rest & Ht & H).
  destruct (trace_prefix collab fuel (main pf p0) w 70) as [more Hm].
  exists lb, la, m, rest, more. split; [|exact H].
  rewrite <- Hm, <- Ht. f_equal. lia.
Qed.

Lemma nth_error_split {A} (l1 l2 : list A) (i : nat) (o : A) :
  nth_error (l1 ++ l2) i = Some o ->
  ((i < List.length l1)%nat /\ nth_error l1 i = Some o) \/
  ((List.length l1 <= i)%nat /\ nth_error l2 (i - List.length l1) = Some o).
Proof.
  intros H. destruct (Nat.lt_ge_cases i (List.length l1)) as [Hi|Hi].
  - left. rewrite nth_error_app1 in H by exact Hi. auto.
  - right. rewrite nth_error_app2 in H by exact Hi. auto.
Qed.

Lemma nth_error_longer {A} (l more : list A) (i j : nat) (o : A) :
  nth_error l i = Some o -> (j <= i)%nat ->
  nth_error l j = nth_error (l ++ more) j /\
  firstn j l = firstn j (l ++ more).
Proof.
  intros H Hj.
  assert (Hi : (i < List.length l)%nat) by (apply nth_error_Some; congruence).
  split.
  - rewrite nth_error_app1 by lia. reflexivity.
  - rewrite firstn_app. replace (j - List.length l)%nat with 0%nat by lia.
    simpl. rewrite app_nil_r. reflexivity.
Qed.

(** In any run of [main], an invocation of an entry point is the last
    operation of the handoff. *)
Lemma main_entry (p0 : Z) (w : world Ext) (fuel i : nat)
      (la argc argv : Z) (ans : list Z) :
  nth_error (trace_of collab fuel w (main pf p0)) i
  = Some (Ev (maincall la argc argv), ans) ->
  exists lb m rest more,
    trace_of collab fuel w (main pf p0) ++ more
    = lb ++ handoff_log la m ++ rest /\
    List.length lb = 48%nat /\ Forall quiet lb /\
    i = 52%nat /\ argc = 0 /\ argv = NULL.
Proof.
  intros Hi.
  destruct (main_any_run p0 w fuel)
    as (lb & la' & m & rest & more & Ht & Hlen & Hq & Hr).
  destruct (nth_error_longer _ more i i _ Hi (le_n i)) as [Hi' _].
  rewrite Hi, Ht in Hi'. symmetry in Hi'.
  apply nth_error_split in Hi'. destruct Hi' as [[_ Hb]|[Hge Hh]].
  { (* in the bring-up: nothing there invokes an entry point *)
    apply nth_error_In in Hb. rewrite Forall_forall in Hq.
    destruct (Hq _ Hb) as [Hm _]. discriminate Hm. }
  rewrite Hlen in Hge, Hh.
  apply nth_error_split in Hh. destruct Hh as [[Hlt Hh]|[_ Hh]].
  2:{ (* after the handoff: nothing there invokes an entry point *)
    apply nth_error_In in Hh. rewrite Forall_forall in Hr.
    specialize (Hr _ Hh). discriminate Hr. }
  simpl in Hlt.
  assert (Hj : (i - 48 = 0 \/ i - 48 = 1 \/ i - 48 = 2 \/ i - 48 = 3
                \/ i - 48 = 4)%nat) by lia.
  destruct Hj as [Hj|[Hj|[Hj|[Hj|Hj]]]]; rewrite Hj in Hh;
    apply (f_equal (fun x => match x with
                             | Some o => maincall_of o
                             | None => None
                             end)) in Hh;
    cbv in Hh; try discriminate Hh.
  injection Hh as <- <- <-.
  exists lb, m, rest, more. repeat split; auto. lia.
Qed.

(** The buffer that [lcdfb] points to: [main] asks [calloc] for
    [lcdfb_size] bytes and stores what it gets in [lcdfb]. *)
Lemma boot_allocates (w : world Ext) (d : nat) :
  exists p rest,
    trace_of collab (5 + d) w (boot pf)
    = [(Ev syscall_reinit, []);
       (Ev (reg_store MISC (Z.quot (MISC_LED_REG pf) 4) 0xff), []);
       (Ev lcd_init, []);
       (Ev (calloc lcdfb_size 1), [p]);
       (Ev (set_lcdfb p), [])] ++ rest.
Proof.
  unfold boot.
  change (5 + d)%nat with (1 + S (3 + d))%nat.
  erewrite trace_bind_completes; [|apply completes_trigger].
  change (S (3 + d))%nat with (1 + S (2 + d))%nat.
  erewrite trace_bind_completes; [|apply completes_trigger].
  change (S (2 + d))%nat with (1 + S (1 + d))%nat.
  erewrite trace_bind_completes; [|apply completes_trigger].
  change (S (1 + d))%nat with (1 + S d)%nat.
  erewrite trace_bind_completes; [|apply completes_trigger].
  unfold trace_of at 1. simpl.
  destruct (run collab d _ _) as [[rest w'] o].
  do 2 eexists. simpl. reflexivity.
Qed.

(** **** C7 *)

(** C7. Every run of [main] of 70 steps or more, whatever the collaborators
    do, has the call of the loader as its 49th operation, and with the
    entry point [la] and the highest used address [m] that the loader
    handed back, its 51st operation is [sbrk_app_set_heap_start m] and its
    53rd is [maincall la 0 NULL]: the heap start is set to exactly [m]
    before the entry point is invoked, with [argc = 0] and [argv = NULL].
    And in any run of [main], of any length, an entry point is invoked only
    there: as the 53rd operation, after that call of the loader and that
    setting of the heap start. *)
Theorem main_sets_heap_start_then_enters (p0 : Z) (w : world Ext) (d : nat) :
  (exists la m,
     nth_error (trace_of collab (70 + d) w (main pf p0)) 48
     = Some (Ev (load_new_app "autoexec.elf" 0), [la; m]) /\
     nth_error (trace_of collab (70 + d) w (main pf p0)) 50
     = Some (Ev (sbrk_app_set_heap_start m), []) /\
     nth_error (trace_of collab (70 + d) w (main pf p0)) 52
     = Some (Ev (maincall la 0 NULL), []) /\
     firstn 5 (skipn 48 (trace_of collab (70 + d) w (main pf p0)))
     = handoff_log la m) /\
  (forall (fuel i : nat) (la argc argv : Z) (ans : list Z),
     nth_error (trace_of collab fuel w (main pf p0)) i
     = Some (Ev (maincall la argc argv), ans) ->
     i = 52%nat /\ argc = 0 /\ argv = NULL /\
     exists m,
       nth_error (trace_of collab fuel w (main pf p0)) 48
       = Some (Ev (load_new_app "autoexec.elf" 0), [la; m]) /\
       nth_error (trace_of collab fuel w (main pf p0)) 50
       = Some (Ev (sbrk_app_set_heap_start m), [])).
Proof.
  split.
  - destruct (main_long_run p0 w d) as (lb & la & m & rest & Ht & Hlen & _).
    exists la, m. rewrite Ht.
    rewrite !(nth_error_app2 lb) by lia. rewrite Hlen.
    repeat split.
    rewrite skipn_app, Hlen, skipn_all2 by lia. reflexivity.
  - intros fuel i la argc argv ans Hi.
    destruct (main_entry p0 w fuel i la argc argv ans Hi)
      as (lb & m & rest & more & Ht & Hlen & Hq & -> & -> & ->).
    repeat split; auto. exists m.
    destruct (nth_error_longer _ more 52 48 _ Hi ltac:(lia)) as [-> _].
    destruct (nth_error_longer _ more 52 50 _ Hi ltac:(lia)) as [-> _].
    rewrite Ht.
    split; rewrite (nth_error_app2 lb) by lia; rewrite Hlen; reflexivity.
Qed.

(** **** C1 *)

(** C1, amended. In any run of [main], nothing that comes before the
    invocation of the entry point is a store through a
    [volatile uint32_t *]: [main] calls [cache_flush] nowhere between the
    start and the entry into the application, and what separates the
    return of the loader from that entry is a line of log, the setting of
    the heap start and another line of log. *)
Theorem main_enters_without_flush
        (p0 : Z) (w : world Ext) (fuel i : nat) (la argc argv : Z) (ans : list Z) :
  nth_error (trace_of collab fuel w (main pf p0)) i
  = Some (Ev (maincall la argc argv), ans) ->
  Forall (fun o => store32_of o = None)
    (firstn i (trace_of collab fuel w (main pf p0))) /\
  exists m,
    firstn 5 (skipn (i - 4) (trace_of collab fuel w (main pf p0)))
    = handoff_log la m.
Proof.
  intros Hi.
  destruct (main_entry p0 w fuel i la argc argv ans Hi)
    as (lb & m & rest & more & Ht & Hlen & Hq & -> & -> & ->).
  assert (Hl : (52 < List.length (trace_of collab fuel w (main pf p0)))%nat)
    by (apply nth_error_Some; congruence).
  split.
  - destruct (nth_error_longer _ more 52 52 _ Hi (le_n _)) as [_ ->].
    rewrite Ht, firstn_app, Hlen, firstn_all2 by lia.
    apply Forall_app. split.
    + eapply Forall_impl; [|exact Hq]. intros o [_ Ho]. exact Ho.
    + simpl. repeat constructor.
  - exists m.
    assert (E : firstn 53 (trace_of collab fuel w (main pf p0))
                = lb ++ handoff_log la m).
    { replace (firstn 53 (trace_of collab fuel w (main pf p0)))
        with (firstn 53 (trace_of collab fuel w (main pf p0) ++ more)).
      - rewrite Ht, firstn_app, Hlen, firstn_all2 by lia.
        f_equal.
      - rewrite firstn_app. replace (53 - _)%nat with 0%nat by lia.
        simpl. apply app_nil_r. }
    rewrite <- (firstn_skipn 53 (trace_of collab fuel w (main pf p0))), E.
    change (52 - 4)%nat with 48%nat.
    rewrite <- app_assoc, skipn_app, Hlen, skipn_all2 by lia.
    reflexivity.
Qed.

End MainRuns.

(** ** The theorems at work on the sample platform *)

Section Instances.

Import Sample.

(** C2 at pixel (3, 2) of a zeroed buffer. *)
Lemma lcd_pset_writes_one_nibble_witness :
  lcdfb w1 <> NULL /\ 0 <= 3 <= 480 /\ 0 <= 2 <= 320 /\ (10 < 11)%nat /\
  filter is_write (trace_of collab 11 w1 (lcd_pset 3 2 0xFF0000))
  = [(Ev (mem_store8 (0x40100000 + 513)
            (ram (world_of collab 11 w1 (lcd_pset 3 2 0xFF0000))
               (0x40100000 + 513))), [])].
Proof.
  assert (H1 : lcdfb w1 <> NULL) by discriminate.
  assert (H2 : 0 <= 3 <= 480) by lia.
  assert (H3 : 0 <= 2 <= 320) by lia.
  assert (H4 : (10 < 11)%nat) by lia.
  refine (conj H1 (conj H2 (conj H3 (conj H4 _)))).
  exact (proj1 (proj2 (lcd_pset_writes_one_nibble collab 3 2 0xFF0000 w1 11
                         H1 H2 H3 H4))).
Defined.

(** C4 at [x = 0]. *)
Lemma lcd_pset_row_320_outside_buffer_witness :
  lcdfb w1 <> NULL /\ 0 <= 0 <= 480 /\ (5 < 6)%nat /\
  lcdfb_size <= (0 + 320 * 512) / 2.
Proof.
  assert (H1 : lcdfb w1 <> NULL) by discriminate.
  assert (H2 : 0 <= 0 <= 480) by lia.
  assert (H3 : (5 < 6)%nat) by lia.
  refine (conj H1 (conj H2 (conj H3 _))).
  exact (proj1 (proj2 (proj2
           (lcd_pset_row_320_outside_buffer collab 0 0xFFFFFF w1 6 H1 H2 H3)))).
Defined.

(** C6 at [x = 481]. *)
Lemma lcd_pset_out_of_bounds_is_noop_witness :
  (lcdfb w1 = NULL \/ 481 < 0 \/ 480 < 481 \/ 0 < 0 \/ 320 < 0) /\ (1 < 2)%nat /\
  world_of collab 2 w1 (lcd_pset 481 0 0xFFFFFF) = w1.
Proof.
  assert (H1 : lcdfb w1 = NULL \/ 481 < 0 \/ 480 < 481 \/ 0 < 0 \/ 320 < 0)
    by (right; right; left; lia).
  assert (H2 : (1 < 2)%nat) by lia.
  refine (conj H1 (conj H2 _)).
  exact (proj1 (proj2 (lcd_pset_out_of_bounds_is_noop collab 481 0 0xFFFFFF w1 2
                         H1 H2))).
Defined.

(** C10 at pixel (3, 2). *)
Lemma lcd_pset_idempotent_witness :
  (10 < 11)%nat /\
  forall a,
    ram (world_of collab 11 w1 (lcd_pset 3 2 0xFF0000;; lcd_pset 3 2 0xFF0000)) a
    = ram (world_of collab 11 w1 (lcd_pset 3 2 0xFF0000)) a.
Proof.
  assert (H : (10 < 11)%nat) by lia.
  split; [exact H|].
  exact (proj1 (proj2 (proj2 (lcd_pset_idempotent collab 3 2 0xFF0000 w1 11 H)))).
Defined.

(** C8 on the region the diagnostic loop flushes. *)
Lemma cache_flush_one_store_witness :
  0 <= 0x40100000 < 2 ^ 32 /\ 0 <= 0x40112C00 < 2 ^ 32 /\ (1 < 2)%nat /\
  trace_of collab 2 w1 (cache_flush pf 0x40100000 0x40112C00)
  = [(Ev (mem_store32
            (wrap32 ((0x40100000 - 0x40100000 mod 4) - MACH_RAM_START pf
                     + MACH_FLUSH_REGION pf))
            (wrap32 (0x40112C00 - MACH_RAM_START pf))), [])].
Proof.
  assert (H1 : 0 <= 0x40100000 < 2 ^ 32) by lia.
  assert (H2 : 0 <= 0x40112C00 < 2 ^ 32) by lia.
  assert (H3 : (1 < 2)%nat) by lia.
  refine (conj H1 (conj H2 (conj H3 _))).
  exact (proj1 (cache_flush_one_store pf collab 0x40100000 0x40112C00 w1 2
                  H1 H2 H3)).
Defined.

(** C9 from the counter value 7. *)
Lemma diag_iteration_counts_draws_polls_witness :
  INT_MIN <= 7 < INT_MAX /\ (1505 < 1506)%nat /\
  exists fb v w',
    result_of collab 1506 w1 (diag_iteration pf 7) = Some (7 + 1) /\
    trace_of collab 1506 w1 (diag_iteration pf 7)
    = [(Ev (UG_SetForecolor (C_RED pf)), []);
       (Ev (UG_PutString 48 64 (sprintf_d (7 + 1))), []);
       (Ev get_lcdfb, [fb]);
       (Ev get_lcdfb, [fb]);
       (Ev (mem_store32 (cache_flush_p pf fb) v), [])]
      ++ List.concat (repeat [(Ev usb_poll, []); (Ev tud_task, [])] 500) /\
    decimal_value (sprintf_d (7 + 1)) = Some (7 + 1) /\
    forall more,
      trace_of collab (1506 + more) w1 (diag_loop pf 7)
      = trace_of collab 1506 w1 (diag_iteration pf 7)
        ++ trace_of collab more w' (diag_loop pf (7 + 1)).
Proof.
  assert (H1 : INT_MIN <= 7 < INT_MAX) by (unfold INT_MIN, INT_MAX; lia).
  assert (H2 : (1505 < 1506)%nat) by lia.
  split; [exact H1|]. split; [exact H2|].
  exact (diag_iteration_counts_draws_polls pf collab 7 w1 1506 H1 H2).
Defined.

(** The run of [main] on the sample platform gets to the entry point. *)
Lemma sample_run_enters :
  nth_error (trace_of collab 100 w0 (main pf 0)) 52
  = Some (Ev (maincall 0x40002000 0 NULL), []).
Proof. vm_compute. reflexivity. Defined.

(** C7 on the run of [main] on the sample platform: the entry point that
    is invoked is the one the loader handed back. *)
Lemma main_sets_heap_start_then_enters_witness :
  nth_error (trace_of collab 100 w0 (main pf 0)) 52
  = Some (Ev (maincall 0x40002000 0 NULL), []) /\
  exists m,
    nth_error (trace_of collab 100 w0 (main pf 0)) 48
    = Some (Ev (load_new_app "autoexec.elf" 0), [0x40002000; m]) /\
    nth_error (trace_of collab 100 w0 (main pf 0)) 50
    = Some (Ev (sbrk_app_set_heap_start m), []).
Proof.
  split; [exact sample_run_enters|].
  exact (proj2 (proj2 (proj2
           (proj2 (main_sets_heap_start_then_enters pf collab 0 w0 0)
              100%nat 52%nat 0x40002000 0 NULL [] sample_run_enters)))).
Defined.

(** C1, amended, on the run of [main] on the sample platform. *)
Lemma main_enters_without_flush_witness :
  nth_error (trace_of collab 100 w0 (main pf 0)) 52
  = Some (Ev (maincall 0x40002000 0 NULL), []) /\
  Forall (fun o => store32_of o = None)
    (firstn 52 (trace_of collab 100 w0 (main pf 0))).
Proof.
  split; [exact sample_run_enters|].
  exact (proj1 (main_enters_without_flush pf collab 0 w0 100 52
                  0x40002000 0 NULL [] sample_run_enters)).
Defined.

(** C1 does not hold as the specification states it: on the sample
    platform the loader hands back the entry point [0x40002000] and the
    highest used address [0x40010000], the 53rd operation of [main] invokes
    that entry point, and none of the 52 operations before it is a store
    through a [volatile uint32_t *], the only thing a call of [cache_flush]
    does: no flush was requested. *)
Lemma main_flush_before_entry_fails :
  nth_error (trace_of collab 100 w0 (main pf 0)) 48
  = Some (Ev (load_new_app "autoexec.elf" 0), [0x40002000; 0x40010000]) /\
  nth_error (trace_of collab 100 w0 (main pf 0)) 52
  = Some (Ev (maincall 0x40002000 0 NULL), []) /\
  filter (fun o => match store32_of o with Some _ => true | None => false end)
    (firstn 52 (trace_of collab 100 w0 (main pf 0))) = [].
Proof. vm_compute. repeat split. Qed.

(** C3 does not hold as the specification states it: for pure red,
    [0xFF0000], the top-used bit of red is set and that of blue is not, and
    the nibble is 9, with bit 0 set and bit 2 clear; for pure blue,
    [0x0000FF], the nibble is 12, with bit 2 set and bit 0 clear. *)
Lemma lcd_pset_n_red_is_not_bit_2 :
  Z.testbit (lcd_pset_n 0xFF0000) 2 <> top_used_bit (color_red 0xFF0000) /\
  Z.testbit (lcd_pset_n 0xFF0000) 0 <> top_used_bit (color_blue 0xFF0000) /\
  top_used_bit (color_red 0xFF0000) = true /\
  top_used_bit (color_blue 0xFF0000) = false /\
  lcd_pset_n 0xFF0000 = 9 /\
  Z.testbit (lcd_pset_n 0x0000FF) 0 <> top_used_bit (color_blue 0x0000FF) /\
  lcd_pset_n 0x0000FF = 12.
Proof. vm_compute. repeat split; discriminate. Qed.

(** C9 does not hold at [p = INT_MAX]: the iteration leaves the counter at
    [INT_MIN], not at [INT_MAX + 1], and draws the numeral of [INT_MIN]. *)
Lemma diag_iteration_at_int_max :
  result_of collab 1506 w1 (diag_iteration pf INT_MAX) <> Some (INT_MAX + 1) /\
  result_of collab 1506 w1 (diag_iteration pf INT_MAX) = Some INT_MIN /\
  nth_error (trace_of collab 1506 w1 (diag_iteration pf INT_MAX)) 1
  = Some (Ev (UG_PutString 48 64 "-2147483648"), []).
Proof.
  assert (H : result_of collab 1506 w1 (diag_iteration pf INT_MAX) = Some INT_MIN)
    by (vm_compute; reflexivity).
  split; [rewrite H; discriminate|]. split; [exact H|].
  vm_compute. reflexivity.
Qed.

(** C5 does not hold of the code: with [lcdfb] at [0x40100000] an iteration of the
    loop makes one write, the store of the flush, whose value, the end of
    the flushed region counted from [MACH_RAM_START], is
    [0x100000 + 76800]; the buffer ends at [0x100000 + 81920]. The byte of
    pixel (0, 300), where [main] draws a string, is the first one left
    out. *)
Theorem diag_flush_stops_short :
  filter is_write (trace_of collab 1506 w1 (diag_iteration pf 0))
  = [(Ev (mem_store32 0x41100000 (0x100000 + 76800)), [])] /\
  lcdfb w1 - MACH_RAM_START pf + lcdfb_size = 0x100000 + 81920 /\
  lcd_pset_index 0 300 = 76800 /\
  lcd_pset_index 479 319 = 81903.
Proof. vm_compute. repeat split. Qed.

End Instances.

(** ** More about the pixel codec *)

Section PixelExtras.

Context {Ext : Type}.
Variable collab : forall X, badgeE X -> world Ext -> world Ext * X.

Lemma lcd_pset_passes_iff (w : world Ext) (x y : Z) :
  lcd_pset_passes w x y = true <-> lcd_pset_accepts w x y.
Proof.
  unfold lcd_pset_passes, lcd_pset_accepts.
  rewrite !andb_true_iff, !negb_true_iff, !orb_false_iff, !Z.gtb_ltb.
  rewrite Z.eqb_neq, !Z.ltb_ge. lia.
Qed.

(** A call of [lcd_pset] returns, in five steps at most, and leaves
    [lcd_pset_world]. *)
Lemma lcd_pset_completes_world (x y c : Z) (w : world Ext) :
  exists s l,
    (s <= 5)%nat /\
    completes collab s w (lcd_pset x y c) l (lcd_pset_world x y c w) tt.
Proof.
  unfold lcd_pset_world.
  destruct (lcd_pset_passes w x y) eqn:Hp.
  - apply lcd_pset_passes_iff in Hp.
    do 2 eexists. split; [|exact (lcd_pset_draws collab x y c w Hp)]. lia.
  - assert (Hn : ~ lcd_pset_accepts w x y).
    { intros Ha. apply lcd_pset_passes_iff in Ha. congruence. }
    do 2 eexists. split; [|exact (lcd_pset_skips collab x y c w Hn)]. lia.
Qed.

Lemma lcd_pset_world_of (x y c : Z) (w : world Ext) (fuel : nat) :
  (5 < fuel)%nat ->
  world_of collab fuel w (lcd_pset x y c) = lcd_pset_world x y c w.
Proof.
  intros Hf. destruct (lcd_pset_completes_world x y c w) as (s & l & Hs & Hc).
  apply (completes_run collab _ _ _ _ _ _ fuel Hc). lia.
Qed.

Lemma lcd_pset_world_of_two (x1 y1 c1 x2 y2 c2 : Z) (w : world Ext) (fuel : nat) :
  (10 < fuel)%nat ->
  world_of collab fuel w (lcd_pset x1 y1 c1;; lcd_pset x2 y2 c2)
  = lcd_pset_world x2 y2 c2 (lcd_pset_world x1 y1 c1 w) /\
  result_of collab fuel w (lcd_pset x1 y1 c1;; lcd_pset x2 y2 c2) = Some tt.
Proof.
  intros Hf.
  destruct (lcd_pset_completes_world x1 y1 c1 w) as (s1 & l1 & Hs1 & Hc1).
  destruct (lcd_pset_completes_world x2 y2 c2 (lcd_pset_world x1 y1 c1 w))
    as (s2 & l2 & Hs2 & Hc2).
  pose proof (completes_bind collab _ (fun _ => lcd_pset x2 y2 c2)
                _ _ _ _ _ _ _ _ _ Hc1 Hc2) as H12.
  destruct (completes_run collab _ _ _ _ _ _ fuel H12 ltac:(lia)) as (_ & Hw & Hr).
  auto.
Qed.

(** The byte of a pixel that passes the guards lies in the 256 bytes of its
    row, among the first 241. *)
Lemma lcd_pset_index_row (x y : Z) :
  0 <= x <= 480 -> 0 <= y <= 320 ->
  lcd_pset_index x y = 256 * y + x / 2 /\ 0 <= x / 2 <= 240.
Proof.
  intros Hx Hy. destruct (lcd_pset_index_div x y Hx Hy) as [-> _].
  replace (x + y * 512) with (x + (256 * y) * 2) by lia.
  rewrite Z.div_add by lia. split; [lia|].
  split; [apply Z.div_pos; lia|].
  apply Z.div_le_upper_bound; lia.
Qed.

(** **** X1 *)

(** X1. The nibble [lcd_pset] computes depends on six bits of the color
    only, the bits 6, 7, 14, 15, 22 and 23: clearing every other bit of [c]
    leaves it as it is, and so two colors that agree on [0xC0C0C0] get the
    same nibble. *)
Theorem lcd_pset_n_mask (c c' : Z) :
  lcd_pset_n (Z.land c 0xC0C0C0) = lcd_pset_n c /\
  (Z.land c 0xC0C0C0 = Z.land c' 0xC0C0C0 -> lcd_pset_n c = lcd_pset_n c').
Proof.
  assert (H : forall d, lcd_pset_n (Z.land d 0xC0C0C0) = lcd_pset_n d).
  { intros d. rewrite !lcd_pset_n_bits, !Z.land_spec.
    change (Z.testbit 12632256 23) with true.
    change (Z.testbit 12632256 22) with true.
    change (Z.testbit 12632256 15) with true.
    change (Z.testbit 12632256 14) with true.
    change (Z.testbit 12632256 7) with true.
    change (Z.testbit 12632256 6) with true.
    rewrite !andb_true_r. reflexivity. }
  split; [apply H|].
  intros E. rewrite <- (H c), <- (H c'), E. reflexivity.
Qed.

(** **** X2 *)

(** X2. For coordinates that pass the guards of [lcd_pset], the index of the
    byte accessed is never negative, and it is inside the [lcdfb_size] bytes
    that [main] allocates exactly when [y < 320]: row 320 is the only row
    that [lcd_pset] accepts and that lies outside the buffer. *)
Theorem lcd_pset_index_in_buffer (x y : Z) :
  0 <= x <= 480 -> 0 <= y <= 320 ->
  0 <= lcd_pset_index x y /\
  (lcd_pset_index x y < lcdfb_size <-> y < 320).
Proof.
  intros Hx Hy. destruct (lcd_pset_index_row x y Hx Hy) as [-> Hh].
  change lcdfb_size with 81920. lia.
Qed.

(** **** X3 *)

(** X3. Two pixels that pass the guards of [lcd_pset] and whose [x] have the
    same parity are stored in the same byte only if they are the same pixel;
    and two such pixels share a byte exactly when they are in the same row
    and their [x] halve to the same number. *)
Theorem lcd_pset_index_inj (x1 y1 x2 y2 : Z) :
  0 <= x1 <= 480 -> 0 <= y1 <= 320 -> 0 <= x2 <= 480 -> 0 <= y2 <= 320 ->
  (lcd_pset_index x1 y1 = lcd_pset_index x2 y2 <-> y1 = y2 /\ x1 / 2 = x2 / 2) /\
  (lcd_pset_index x1 y1 = lcd_pset_index x2 y2 -> Z.even x1 = Z.even x2 ->
   x1 = x2 /\ y1 = y2).
Proof.
  intros Hx1 Hy1 Hx2 Hy2.
  destruct (lcd_pset_index_row x1 y1 Hx1 Hy1) as [-> H1].
  destruct (lcd_pset_index_row x2 y2 Hx2 Hy2) as [-> H2].
  split; [lia|].
  intros E Hp. assert (Hy : y1 = y2) by lia. split; [|exact Hy].
  assert (Hh : x1 / 2 = x2 / 2) by lia.
  rewrite (Z.div_mod x1 2), (Z.div_mod x2 2), Hh by lia.
  rewrite !Zmod_even, Hp. reflexivity.
Qed.

(** [lcd_pset_o] looks at the parity of [x] only. *)
Lemma lcd_pset_o_parity (x x' o n : Z) :
  Z.even x = Z.even x' -> lcd_pset_o x o n = lcd_pset_o x' o n.
Proof. intros E. unfold lcd_pset_o. rewrite !land_1_eqb, E. reflexivity. Qed.

(** The nibble written last is the one that stays. *)
Lemma lcd_pset_o_over (x o n1 n2 : Z) :
  0 <= n1 < 16 ->
  lcd_pset_o x (lcd_pset_o x o n1) n2 = lcd_pset_o x o n2.
Proof.
  intros Hn. unfold lcd_pset_o. destruct (Z.land x 1 =? 0).
  - destruct (even_nibble o n1 Hn) as (E1 & _ & E3). rewrite E1, E3. reflexivity.
  - destruct (odd_nibble o n1 Hn) as (E1 & _ & E3). rewrite E1, E3. reflexivity.
Qed.

Lemma lcd_pset_passes_world (x y c x' y' : Z) (w : world Ext) :
  lcd_pset_passes (lcd_pset_world x y c w) x' y' = lcd_pset_passes w x' y'.
Proof.
  unfold lcd_pset_world, lcd_pset_passes.
  destruct (negb (lcdfb w =? NULL) && _ && _); reflexivity.
Qed.

Lemma same_world_refl (w : world Ext) : same_world w w.
Proof. repeat split. Qed.

(** **** X4 *)

(** X4. Writing a pixel twice, with whatever colors, leaves [lcdfb], every
    byte of RAM and the state of the collaborators as writing it once with
    the second color does: the last color wins, and nothing of the first
    one stays. *)
Theorem lcd_pset_overwrites (x y c1 c2 : Z) (w : world Ext) (fuel : nat) :
  (10 < fuel)%nat ->
  same_world
    (world_of collab fuel w (lcd_pset x y c1;; lcd_pset x y c2))
    (world_of collab fuel w (lcd_pset x y c2)).
Proof.
  intros Hf.
  destruct (lcd_pset_world_of_two x y c1 x y c2 w fuel Hf) as [-> _].
  rewrite lcd_pset_world_of by lia.
  unfold lcd_pset_world at 1. rewrite lcd_pset_passes_world.
  unfold lcd_pset_world.
  destruct (lcd_pset_passes w x y); [|apply same_world_refl].
  unfold same_world. simpl. repeat split. intros a. unfold upd. rewrite Z.eqb_refl.
  destruct (a =? lcdfb w + lcd_pset_index x y); [|reflexivity].
  apply lcd_pset_o_over, lcd_pset_n_range.
Qed.

(** **** X5 *)

(** X5. Writing two different pixels in one order or in the other leaves
    [lcdfb], every byte of RAM and the state of the collaborators the same,
    whether the pixels pass the guards or not and whether they share a byte
    or not. *)
Theorem lcd_pset_commutes (x1 y1 c1 x2 y2 c2 : Z) (w : world Ext) (fuel : nat) :
  (10 < fuel)%nat -> (x1, y1) <> (x2, y2) ->
  same_world
    (world_of collab fuel w (lcd_pset x1 y1 c1;; lcd_pset x2 y2 c2))
    (world_of collab fuel w (lcd_pset x2 y2 c2;; lcd_pset x1 y1 c1)).
Proof.
  intros Hf Hne.
  destruct (lcd_pset_world_of_two x1 y1 c1 x2 y2 c2 w fuel Hf) as [-> _].
  destruct (lcd_pset_world_of_two x2 y2 c2 x1 y1 c1 w fuel Hf) as [-> _].
  unfold lcd_pset_world at 1 3. rewrite !lcd_pset_passes_world.
  unfold lcd_pset_world.
  destruct (lcd_pset_passes w x1 y1) eqn:P1, (lcd_pset_passes w x2 y2) eqn:P2;
    try apply same_world_refl.
  apply lcd_pset_passes_iff in P1, P2.
  destruct P1 as (_ & Hx1 & Hy1), P2 as (_ & Hx2 & Hy2).
  unfold same_world. simpl. repeat split. intros a.
  set (a1 := lcdfb w + lcd_pset_index x1 y1).
  set (a2 := lcdfb w + lcd_pset_index x2 y2).
  pose proof (lcd_pset_n_range c1) as Hn1.
  pose proof (lcd_pset_n_range c2) as Hn2.
  destruct (Z.eq_dec a1 a2) as [E|N].
  - (* one byte, two nibbles *)
    rewrite <- E. unfold upd. rewrite !Z.eqb_refl.
    destruct (a =? a1); [|reflexivity].
    assert (Ei : lcd_pset_index x1 y1 = lcd_pset_index x2 y2) by (unfold a1, a2 in E; lia).
    destruct (lcd_pset_index_inj x1 y1 x2 y2 Hx1 Hy1 Hx2 Hy2) as [_ Hinj].
    destruct (Z.even x1) eqn:E1, (Z.even x2) eqn:E2;
      try (exfalso; apply Hne; destruct (Hinj Ei) as [-> ->]; congruence).
    + assert (Ex : Z.even x2 = Z.even (x1 + 1)) by (rewrite Z.even_add, E1, E2; reflexivity).
      repeat rewrite (lcd_pset_o_parity x2 (x1 + 1) _ _ Ex).
      destruct (lcd_pset_o_pair x1 (ram w a1) _ _ E1 Hn1 Hn2) as [-> ->].
      reflexivity.
    + assert (Ex : Z.even x1 = Z.even (x2 + 1)) by (rewrite Z.even_add, E1, E2; reflexivity).
      repeat rewrite (lcd_pset_o_parity x1 (x2 + 1) _ _ Ex).
      destruct (lcd_pset_o_pair x2 (ram w a1) _ _ E2 Hn2 Hn1) as [-> ->].
      reflexivity.
  - (* two bytes *)
    unfold upd.
    destruct (Z.eqb_spec a2 a1); [congruence|].
    destruct (Z.eqb_spec a1 a2); [congruence|].
    destruct (Z.eqb_spec a a2), (Z.eqb_spec a a1); try reflexivity. congruence.
Qed.

End PixelExtras.

(** ** More about the cache flush *)

Section FlushExtras.

Context {Ext : Type}.
Variable pf : platform.
Variable collab : forall X, badgeE X -> world Ext -> world Ext * X.

Lemma wrap32_mod4 (z : Z) : wrap32 z mod 4 = z mod 4.
Proof.
  unfold wrap32. apply Z.mod_mod_divide. exists (2 ^ 30). reflexivity.
Qed.

(** **** X6 *)

(** X6. On a platform whose [MACH_RAM_START] and [MACH_FLUSH_REGION] are
    multiples of 4, the location [cache_flush] stores to is a multiple of 4,
    whatever the start address; the two low bits of the start address play
    no part in it; and for a start address at or above a [MACH_RAM_START]
    whose image in the flush window does not pass [2^32], the location is
    the start address moved from the RAM base to the window base and
    rounded down to a multiple of 4. *)
Theorem cache_flush_p_aligned (addr_start : Z) :
  0 <= addr_start < 2 ^ 32 ->
  MACH_RAM_START pf mod 4 = 0 -> MACH_FLUSH_REGION pf mod 4 = 0 ->
  cache_flush_p pf addr_start mod 4 = 0 /\
  cache_flush_p pf (addr_start - addr_start mod 4) = cache_flush_p pf addr_start /\
  (MACH_RAM_START pf <= addr_start -> 0 <= MACH_FLUSH_REGION pf ->
   MACH_FLUSH_REGION pf + (addr_start - MACH_RAM_START pf) < 2 ^ 32 ->
   cache_flush_p pf addr_start
   = MACH_FLUSH_REGION pf + (addr_start - MACH_RAM_START pf)
     - (addr_start - MACH_RAM_START pf) mod 4).
Proof.
  intros Hs Hr Hf.
  pose proof (Z.mod_pos_bound addr_start 4 ltac:(lia)) as Hm.
  pose proof (Z.div_mod addr_start 4 ltac:(lia)) as Hd.
  pose proof (Z.div_mod (MACH_RAM_START pf) 4 ltac:(lia)) as Hdr.
  pose proof (Z.div_mod (MACH_FLUSH_REGION pf) 4 ltac:(lia)) as Hdf.
  assert (Ep : cache_flush_p pf addr_start
               = wrap32 (addr_start - addr_start mod 4 - MACH_RAM_START pf
                         + MACH_FLUSH_REGION pf)).
  { unfold cache_flush_p. rewrite land_not3 by exact Hs. reflexivity. }
  split; [|split].
  - rewrite Ep, wrap32_mod4.
    replace (addr_start - addr_start mod 4 - MACH_RAM_START pf + MACH_FLUSH_REGION pf)
      with (0 + (addr_start / 4 - MACH_RAM_START pf / 4 + MACH_FLUSH_REGION pf / 4) * 4)
      by lia.
    rewrite Z.mod_add by lia. reflexivity.
  - rewrite Ep. unfold cache_flush_p. rewrite land_not3 by lia.
    replace ((addr_start - addr_start mod 4) mod 4) with 0; [f_equal; lia|].
    replace (addr_start - addr_start mod 4) with (0 + (addr_start / 4) * 4) by lia.
    rewrite Z.mod_add by lia. reflexivity.
  - intros Hge Hfl Hlt. rewrite Ep.
    assert (Em : (addr_start - MACH_RAM_START pf) mod 4 = addr_start mod 4).
    { replace (addr_start - MACH_RAM_START pf)
        with (addr_start + (- (MACH_RAM_START pf / 4)) * 4) by lia.
      apply Z.mod_add. lia. }
    rewrite Em. rewrite wrap32_small by lia. lia.
Qed.

Lemma filter_store32_write (l : list entry) :
  filter is_store32 (filter is_write l) = filter is_store32 l.
Proof.
  induction l as [|o l IH]; [reflexivity|].
  simpl. destruct o as [[X e] ans]. destruct e; simpl; try exact IH.
  rewrite IH. reflexivity.
Qed.

(** **** X12 *)

(** X12. The flush an iteration of the loop requests is the only store
    through a [volatile uint32_t *] of that iteration and ends [320*480/2]
    bytes after [lcdfb]; the byte of a pixel that passes the guards of
    [lcd_pset] lies before that end exactly when [y < 300]. The 20 rows
    from 300 on, and row 320, are drawn but not flushed. *)
Theorem diag_flush_covers_rows (p x y : Z) (w : world Ext) (fuel : nat) :
  (1505 < fuel)%nat -> 0 <= x <= 480 -> 0 <= y <= 320 ->
  let fb := lcdfb (drawn_world pf collab p w) in
  filter is_store32 (trace_of collab fuel w (diag_iteration pf p))
  = [(Ev (mem_store32 (cache_flush_p pf fb)
            (wrap32 (fb + Z.quot (320 * 480) 2 - MACH_RAM_START pf))), [])] /\
  fb <= fb + lcd_pset_index x y /\
  (fb + lcd_pset_index x y < fb + Z.quot (320 * 480) 2 <-> y < 300).
Proof.
  intros Hf Hx Hy fb.
  destruct (diag_iteration_flush pf collab p w fuel Hf) as (_ & Hw & _).
  fold fb in Hw.
  destruct (lcd_pset_index_row x y Hx Hy) as [-> Hh].
  change (Z.quot (320 * 480) 2) with 76800.
  split; [|lia].
  rewrite <- filter_store32_write, Hw. reflexivity.
Qed.

End FlushExtras.

(** ** More about [main] *)

Section MainExtras.

Context {Ext : Type}.
Variable pf : platform.
Variable collab : forall X, badgeE X -> world Ext -> world Ext * X.

(** Any run of [main] is the beginning of the log of the bring-up, the log of
    the handoff and a log of the diagnostic part, whatever one wants to know
    of the first and the last. *)
Lemma main_shape (Qb Qd : entry -> Prop) (p0 : Z) (w : world Ext) (fuel : nat) :
  always collab Qb (boot pf) ->
  always collab Qd (diag_setup pf;; diag_loop pf p0) ->
  exists lb la m rest more,
    trace_of collab fuel w (main pf p0) ++ more = lb ++ handoff_log la m ++ rest /\
    List.length lb = 48%nat /\ Forall Qb lb /\ Forall Qd rest.
Proof.
  intros Hqb Hqd.
  destruct (boot_completes pf collab w) as (lb & wb & Hb & Hlen).
  destruct (handoff_completes collab wb) as (wh & Hh). cbv zeta in Hh.
  set (r := snd (collab _ (load_new_app "autoexec.elf" 0) wb)) in *.
  destruct (trace_prefix collab fuel (main pf p0) w 70) as [more Hm].
  exists lb, (fst r), (snd r),
    (trace_of collab (S fuel) wh (diag_setup pf;; diag_loop pf p0)), more.
  split; [|split; [exact Hlen|split]].
  - rewrite <- Hm. unfold main.
    replace (fuel + 70)%nat with (64 + S (5 + fuel))%nat by lia.
    rewrite (trace_bind_completes collab _ _ _ _ _ _ _ _ Hb).
    replace (S (5 + fuel)) with (5 + S fuel)%nat by lia.
    rewrite (trace_bind_completes collab _ _ _ _ _ _ _ _ Hh).
    reflexivity.
  - exact (completes_always collab _ _ _ _ _ _ _ Hb Hqb).
  - exact (Hqd (S fuel) wh).
Qed.

Lemma boot_never_loads_nor_draws :
  always collab (fun o => loader_of o = None /\ is_diag o = false) (boot pf).
Proof.
  unfold boot.
  repeat first
    [ apply always_trigger; intros; split; reflexivity
    | apply always_ret
    | apply always_for_lt; intros
    | apply always_bind; [|intros] ].
Qed.

Lemma diag_never_loads (p0 : Z) :
  always collab (fun o => loader_of o = None) (diag_setup pf;; diag_loop pf p0).
Proof.
  unfold diag_setup, diag_loop, diag_iteration, poll_transport, cache_flush.
  repeat first
    [ apply always_trigger; intros; reflexivity
    | apply always_ret
    | apply always_for_lt; intros
    | apply always_iter; intros
    | apply always_bind; [|intros] ].
Qed.

Lemma always_True {R} (t : itree badgeE R) : always collab (fun _ => True) t.
Proof. intros fuel w. apply Forall_forall. auto. Qed.

(** **** X7 *)

(** X7. In any run of [main] the loader is called at most once: a call of
    [load_new_app] can only be the 49th operation, for the image
    ["autoexec.elf"] and with [max_app_addr] holding 0. Nothing in [main]
    tries the load again or loads another image. *)
Theorem main_loads_once
        (p0 : Z) (w : world Ext) (fuel i : nat) (name : string) (m0 : Z)
        (ans : list Z) :
  nth_error (trace_of collab fuel w (main pf p0)) i
  = Some (Ev (load_new_app name m0), ans) ->
  i = 48%nat /\ name = "autoexec.elf"%string /\ m0 = 0.
Proof.
  intros Hi.
  destruct (main_shape _ _ p0 w fuel boot_never_loads_nor_draws (diag_never_loads p0))
    as (lb & la & m & rest & more & Ht & Hlen & Hq & Hr).
  destruct (nth_error_longer _ more i i _ Hi (le_n i)) as [Hi' _].
  rewrite Hi, Ht in Hi'. symmetry in Hi'.
  apply nth_error_split in Hi'. destruct Hi' as [[_ Hb]|[Hge Hh]].
  { apply nth_error_In in Hb. rewrite Forall_forall in Hq.
    destruct (Hq _ Hb) as [Hm _]. discriminate Hm. }
  rewrite Hlen in Hge, Hh.
  apply nth_error_split in Hh. destruct Hh as [[Hlt Hh]|[_ Hh]].
  2:{ apply nth_error_In in Hh. rewrite Forall_forall in Hr.
      specialize (Hr _ Hh). discriminate Hr. }
  simpl in Hlt.
  assert (Hj : (i - 48 = 0 \/ i - 48 = 1 \/ i - 48 = 2 \/ i - 48 = 3
                \/ i - 48 = 4)%nat) by lia.
  destruct Hj as [Hj|[Hj|[Hj|[Hj|Hj]]]]; rewrite Hj in Hh;
    apply (f_equal (fun x => match x with
                             | Some o => loader_of o
                             | None => None
                             end)) in Hh;
    cbv [nth_error handoff_log loader_of fst projT2 Ev] in Hh;
    try discriminate Hh.
  injection Hh as <- <-. repeat split. lia.
Qed.

(** **** X8 *)

(** X8. In any run of [main], an operation of the diagnostic part (a string
    put on the screen, the mass storage turned on, a poll of the transport
    or a flush) comes after the 53rd operation, the invocation of the entry
    point: as long as the application has not returned, [main] draws
    nothing, polls nothing and flushes nothing. *)
Theorem main_diag_after_entry
        (p0 : Z) (w : world Ext) (fuel i : nat) (o : entry) :
  nth_error (trace_of collab fuel w (main pf p0)) i = Some o ->
  is_diag o = true ->
  (52 < i)%nat /\
  exists la ans,
    nth_error (trace_of collab fuel w (main pf p0)) 52
    = Some (Ev (maincall la 0 NULL), ans).
Proof.
  intros Hi Hd.
  destruct (main_shape _ _ p0 w fuel boot_never_loads_nor_draws
              (always_True (diag_setup pf;; diag_loop pf p0)))
    as (lb & la & m & rest & more & Ht & Hlen & Hq & _).
  destruct (nth_error_longer _ more i i _ Hi (le_n i)) as [Hi' _].
  rewrite Hi, Ht in Hi'. symmetry in Hi'.
  assert (Hgt : (52 < i)%nat).
  { apply nth_error_split in Hi'. destruct Hi' as [[_ Hb]|[Hge Hh]].
    { apply nth_error_In in Hb. rewrite Forall_forall in Hq.
      destruct (Hq _ Hb) as [_ Hm]. congruence. }
    rewrite Hlen in Hge, Hh.
    apply nth_error_split in Hh. destruct Hh as [[Hlt Hh]|[Hge' _]];
      [|simpl in Hge'; lia].
    simpl in Hlt.
    assert (Hj : (i - 48 = 0 \/ i - 48 = 1 \/ i - 48 = 2 \/ i - 48 = 3
                  \/ i - 48 = 4)%nat) by lia.
    destruct Hj as [Hj|[Hj|[Hj|[Hj|Hj]]]]; rewrite Hj in Hh;
      apply (f_equal (fun x => match x with
                               | Some o => is_diag o
                               | None => false
                               end)) in Hh;
      cbv beta iota in Hh; rewrite Hd in Hh;
      cbv [nth_error handoff_log is_diag fst projT2 Ev] in Hh; discriminate Hh. }
  split; [exact Hgt|]. exists la, [].
  destruct (nth_error_longer _ more i 52 _ Hi ltac:(lia)) as [-> _].
  rewrite Ht, (nth_error_app2 lb) by lia. rewrite Hlen. reflexivity.
Qed.

(** **** X9 *)

(** X9. [main] does not look at what the loader hands back: when the loader
    fails and hands back a null entry point, a run of 70 steps or more still
    sets the heap start to the [max_app_addr] the loader left and then
    invokes the address 0 with [argc = 0] and [argv = NULL]. *)
Theorem main_enters_null_entry (p0 m : Z) (w : world Ext) (d : nat) :
  nth_error (trace_of collab (70 + d) w (main pf p0)) 48
  = Some (Ev (load_new_app "autoexec.elf" 0), [NULL; m]) ->
  nth_error (trace_of collab (70 + d) w (main pf p0)) 50
  = Some (Ev (sbrk_app_set_heap_start m), []) /\
  nth_error (trace_of collab (70 + d) w (main pf p0)) 52
  = Some (Ev (maincall NULL 0 NULL), []).
Proof.
  intros H.
  destruct (main_long_run pf collab p0 w d) as (lb & la & m' & rest & Ht & Hlen & _).
  rewrite Ht in *. rewrite (nth_error_app2 lb) in H by lia.
  rewrite !(nth_error_app2 lb) by lia. rewrite Hlen in *.
  apply (f_equal (fun x => match x with
                           | Some o => snd o
                           | None => []
                           end)) in H.
  cbv [nth_error handoff_log snd Nat.sub] in H. injection H as -> ->.
  split; reflexivity.
Qed.

(** **** X10 *)

(** X10. In a run of eight steps or more, the first seven operations of
    [main] end with the store of the frame-buffer address register: the
    value stored is the pointer that [calloc] handed back, read back from
    [lcdfb], reduced to its low 23 bits, that is modulo [2^23]. [main] does
    not test the pointer: for a null one the register gets 0. *)
Theorem boot_points_display_at_lcdfb (w : world Ext) (d : nat) :
  exists p rest,
    trace_of collab (8 + d) w (boot pf)
    = [(Ev syscall_reinit, []);
       (Ev (reg_store MISC (Z.quot (MISC_LED_REG pf) 4) 0xff), []);
       (Ev lcd_init, []);
       (Ev (calloc lcdfb_size 1), [p]);
       (Ev (set_lcdfb p), []);
       (Ev get_lcdfb, [p]);
       (Ev (reg_store GFX (Z.quot (GFX_FBADDR_REG pf) 4) (p mod 2 ^ 23)), [])]
      ++ rest /\
    0 <= p mod 2 ^ 23 < 2 ^ 23.
Proof.
  assert (Hland : forall q, Z.land (wrap32 q) 0x7FFFFF = q mod 2 ^ 23).
  { intros q. change 0x7FFFFF with (Z.ones 23). rewrite Z.land_ones by lia.
    unfold wrap32. apply Z.mod_mod_divide. exists (2 ^ 9). reflexivity. }
  unfold boot.
  change (8 + d)%nat with (1 + S (6 + d))%nat.
  erewrite trace_bind_completes; [|apply completes_trigger].
  change (S (6 + d))%nat with (1 + S (5 + d))%nat.
  erewrite trace_bind_completes; [|apply completes_trigger].
  change (S (5 + d))%nat with (1 + S (4 + d))%nat.
  erewrite trace_bind_completes; [|apply completes_trigger].
  change (S (4 + d))%nat with (1 + S (3 + d))%nat.
  erewrite trace_bind_completes; [|apply completes_trigger].
  change (S (3 + d))%nat with (1 + S (2 + d))%nat.
  erewrite trace_bind_completes; [|apply completes_trigger].
  change (S (2 + d))%nat with (1 + S (1 + d))%nat.
  erewrite trace_bind_completes; [|apply completes_trigger].
  change (S (1 + d))%nat with (1 + S d)%nat.
  erewrite trace_bind_completes; [|apply completes_trigger].
  cbn [handle words fst snd lcdfb app]. rewrite Hland.
  do 2 eexists. split; [reflexivity|].
  apply Z.mod_pos_bound. lia.
Qed.

Lemma strings_put_app (l l' : list entry) :
  strings_put (l ++ l') = strings_put l ++ strings_put l'.
Proof. unfold strings_put. apply flat_map_app. Qed.

Lemma poll_rounds_facts (k : nat) :
  strings_put (List.concat (repeat poll_round k)) = [] /\
  List.length (filter is_poll (List.concat (repeat poll_round k))) = (2 * k)%nat /\
  filter is_store32 (List.concat (repeat poll_round k)) = [].
Proof.
  induction k as [|k (H1 & H2 & H3)]; [repeat split|].
  change (List.concat (repeat poll_round (S k)))
    with (poll_round ++ List.concat (repeat poll_round k)).
  rewrite strings_put_app, !filter_app, length_app, H1, H2, H3.
  repeat split. simpl. lia.
Qed.

(** **** X11 *)

(** X11. From a counter value [p] with [p + n] no more than [INT_MAX], the
    first [n] iterations of [while(1)] take [1506 * n] steps, put on the
    screen, at (48, 64) and in this order, the decimal numerals of [p + 1]
    up to [p + n] and nothing else, make [1000 * n] polling calls and [n]
    flush requests, and leave the loop going on from the counter value
    [p + n]. *)
Theorem diag_loop_counts (n : nat) :
  forall (p : Z) (w : world Ext),
    INT_MIN <= p -> p + Z.of_nat n <= INT_MAX ->
    exists l w',
      (forall more,
         trace_of collab (1506 * n + more) w (diag_loop pf p)
         = l ++ trace_of collab more w' (diag_loop pf (p + Z.of_nat n))) /\
      strings_put l
      = map (fun k => (48, 64, sprintf_d (p + Z.of_nat k))) (seq 1 n) /\
      List.length (filter is_poll l) = (1000 * n)%nat /\
      List.length (filter is_store32 l) = n.
Proof.
  induction n as [|n IH]; intros p w Hlo Hhi.
  - exists [], w. split; [|repeat split].
    intros more. rewrite Z.add_0_r. reflexivity.
  - assert (Ep : int32 (p + 1) = p + 1).
    { apply int32_small. unfold INT_MIN, INT_MAX in *. lia. }
    pose proof (diag_iteration_completes pf collab p w) as Hd. cbv zeta in Hd.
    rewrite Ep in Hd.
    destruct (completes_run collab _ _ _ _ _ _ 1506 Hd ltac:(lia)) as (Ht & _ & _).
    set (w1 := for_world (poll_round_world collab) 500 0 _) in Hd.
    destruct (IH (p + 1) w1 ltac:(lia) ltac:(lia)) as (l & w' & Hl & Hs & Hp & Hf).
    destruct (poll_rounds_facts 500) as (P1 & P2 & P3).
    eexists. exists w'. split; [|split; [|split]].
    + intros more.
      replace (1506 * S n + more)%nat with (1506 + (1506 * n + more))%nat by lia.
      rewrite diag_loop_step, Ep, Ht. fold w1. rewrite Hl.
      replace (p + 1 + Z.of_nat n) with (p + Z.of_nat (S n)) by lia.
      rewrite app_assoc. reflexivity.
    + rewrite !strings_put_app, P1, Hs, app_nil_r.
      change (seq 1 (S n)) with (1%nat :: seq 2 n).
      rewrite <- (seq_shift n 1). cbn [map]. rewrite map_map.
      cbn [strings_put flat_map putstring_of fst projT2 Ev app].
      change (Z.of_nat 1) with 1.
      rewrite !app_nil_r, app_nil_l.
      change ([(48, 64, sprintf_d (p + 1))] ++ ?l)
        with ((48, 64, sprintf_d (p + 1)) :: l).
      f_equal.
      apply map_ext. intros k. do 2 f_equal. lia.
    + unfold entry in *. rewrite !filter_app, !length_app, P2, Hp. simpl. lia.
    + unfold entry in *. rewrite !filter_app, !length_app, P3, Hf. reflexivity.
Qed.

End MainExtras.

(** ** More about the text and the random numbers of [main] *)

Section TextExtras.

Context {Ext : Type}.
Variable pf : platform.
Variable collab : forall X, badgeE X -> world Ext -> world Ext * X.

Lemma string_of_uint_length (d : uint) :
  String.length (NilEmpty.string_of_uint d) = nb_digits d.
Proof. induction d; simpl; congruence. Qed.

Lemma usize_nb_digits (d : uint) :
  Unsigned.usize d = N.of_nat (nb_digits d).
Proof.
  induction d; simpl Unsigned.usize; simpl nb_digits;
    rewrite ?Nnat.Nat2N.inj_succ, ?IHd; reflexivity.
Qed.

(** The numeral of a positive number starts with a digit that is not 0, so
    the number is at least the power of ten of the digits that follow. *)
Lemma to_uint_head (q : positive) :
  exists k u',
    (1 <= k)%N /\
    N.pos q = (Unsigned.of_lu (rev u') + k * 10 ^ Unsigned.usize u')%N /\
    nb_digits (Pos.to_uint q) = S (nb_digits u').
Proof.
  pose proof (Unsigned.of_to q) as Hof.
  pose proof (Unsigned.to_of (Pos.to_uint q)) as Hto.
  rewrite Hof in Hto. simpl in Hto.
  pose proof (Unsigned.to_uint_nonzero q) as Hnz.
  assert (Hh : nzhead (Pos.to_uint q) = Pos.to_uint q).
  { unfold unorm in Hto.
    destruct (nzhead (Pos.to_uint q)) eqn:E; try (symmetry; exact Hto).
    exfalso. apply Hnz. rewrite Hto. reflexivity. }
  pose proof (DecimalFacts.nzhead_nonzero (Pos.to_uint q)) as Hn0.
  rewrite Hh in Hn0.
  pose proof (Unsigned.to_uint_nonnil q) as Hnil.
  destruct (Pos.to_uint q) as [|u'|u'|u'|u'|u'|u'|u'|u'|u'|u'] eqn:E;
    [contradiction| exfalso; apply (Hn0 u'); reflexivity |..];
    simpl in Hof; rewrite Unsigned.of_uint_acc_rev in Hof;
    eexists; exists u'; (split; [|split; [symmetry; exact Hof|reflexivity]]); lia.
Qed.

Lemma to_uint_digits (q : positive) :
  Z.pos q <= 2 ^ 31 -> (nb_digits (Pos.to_uint q) <= 10)%nat.
Proof.
  intros Hq. destruct (to_uint_head q) as (k & u' & Hk & Hv & ->).
  destruct (Nat.le_gt_cases (nb_digits u') 9) as [H|H]; [lia|exfalso].
  assert (Hp : (10 ^ 10 <= 10 ^ Unsigned.usize u')%N).
  { apply N.pow_le_mono_r; [lia|]. rewrite usize_nb_digits. lia. }
  assert (Hz : (N.pos q <= 2 ^ 31)%N) by lia.
  nia.
Qed.

Lemma sprintf_d_length (p : Z) :
  INT_MIN <= p <= INT_MAX -> (String.length (sprintf_d p) <= 11)%nat.
Proof.
  unfold INT_MIN, INT_MAX. intros Hp. unfold sprintf_d.
  destruct p as [|q|q]; [simpl; lia| |].
  - simpl Z.to_int. unfold NilZero.string_of_int, NilZero.string_of_uint.
    pose proof (to_uint_digits q ltac:(lia)) as Hd.
    destruct (Pos.to_uint q) eqn:E; try (simpl; lia);
      rewrite string_of_uint_length; lia.
  - simpl Z.to_int. unfold NilZero.string_of_int, NilZero.string_of_uint.
    pose proof (to_uint_digits q ltac:(lia)) as Hd.
    destruct (Pos.to_uint q) eqn:E; try (simpl; lia);
      simpl String.length; rewrite string_of_uint_length;
      simpl nb_digits in Hd; lia.
Qed.

(** **** X13 *)

(** X13. Whatever the counter holds, the text an iteration of [while(1)]
    formats with ["%d"] has 11 characters at most, so that with its
    terminating zero it takes 12 of the 20 bytes of [buf]; it is the text
    [UG_PutString] is then given, and it reads back as the counter's new
    value. *)
Theorem diag_iteration_text_fits (p : Z) (w : world Ext) (fuel : nat) :
  (1505 < fuel)%nat ->
  exists s,
    nth_error (trace_of collab fuel w (diag_iteration pf p)) 1
    = Some (Ev (UG_PutString 48 64 s), []) /\
    (String.length s + 1 <= 12)%nat /\ (12 <= buf_size)%nat /\
    decimal_value s = result_of collab fuel w (diag_iteration pf p).
Proof.
  intros Hf.
  pose proof (diag_iteration_completes pf collab p w) as Hd. cbv zeta in Hd.
  destruct (completes_run collab _ _ _ _ _ _ fuel Hd Hf) as (Ht & _ & Hr).
  exists (sprintf_d (int32 (p + 1))).
  rewrite Ht, Hr. split; [reflexivity|].
  pose proof (sprintf_d_length (int32 (p + 1))) as Hl.
  assert (Hi : INT_MIN <= int32 (p + 1) <= INT_MAX).
  { unfold int32, INT_MIN, INT_MAX.
    pose proof (Z.mod_pos_bound (p + 1 + 2 ^ 31) (2 ^ 32) ltac:(lia)). lia. }
  specialize (Hl Hi).
  split; [lia|]. split; [unfold buf_size; lia|].
  apply sprintf_d_value.
Qed.

Lemma rng_log_nth (count : nat) :
  forall (i : Z) (w : world Ext) (j : nat),
    (j < count)%nat ->
    exists r,
      nth_error (for_log (rng_round_log pf collab) (rng_round_world pf collab)
                   count i w) (2 * j)
      = Some (Ev (reg_load MISC (Z.quot (MISC_RNG_REG pf) 4)), [r]) /\
      nth_error (for_log (rng_round_log pf collab) (rng_round_world pf collab)
                   count i w) (S (2 * j))
      = Some (Ev (printf "%d: %08X (%d)\n" [i + Z.of_nat j; r; r]), []).
Proof.
  induction count as [|count IH]; intros i w j Hj; [lia|].
  destruct j as [|j].
  - eexists. cbn [for_log rng_round_log app Nat.mul nth_error Nat.add Z.of_nat].
    rewrite Z.add_0_r. split; reflexivity.
  - destruct (IH (i + 1) (rng_round_world pf collab i w) j ltac:(lia))
      as (r & H1 & H2).
    exists r. replace (2 * S j)%nat with (S (S (2 * j))) by lia.
    replace (i + Z.of_nat (S j)) with (i + 1 + Z.of_nat j) by lia.
    cbn [for_log rng_round_log app nth_error]. split; assumption.
Qed.

Lemma boot_rng_completes (w : world Ext) :
  exists l w',
    completes collab 64 w (boot pf) l w' tt /\
    List.length l = 48%nat /\
    exists w16,
      skipn 16 l
      = for_log (rng_round_log pf collab) (rng_round_world pf collab) 16 0 w16.
Proof.
  unfold boot. do 2 eexists. split; [|split].
  - eapply completes_eq.
    + do 16 (eapply completes_bind; [apply completes_trigger|]).
      apply (for_lt_completes collab 16 _ 2
               (rng_round_log pf collab) (rng_round_world pf collab));
        [unfold INT_MAX; lia|].
      intros i w' _.
      eapply completes_eq;
        [ eapply completes_bind; [apply completes_trigger|];
          apply completes_trigger
        | reflexivity
        | reflexivity
        | reflexivity
        | destruct (snd _); reflexivity ].
    + reflexivity.
    + reflexivity.
    + reflexivity.
    + reflexivity.
  - rewrite !length_app, (for_log_length _ _ 2); reflexivity.
  - eexists. cbn [skipn app]. reflexivity.
Qed.

(** **** X14 *)

(** X14. The bring-up of [main] logs 48 operations, and the last 32 are the
    loop of the random numbers: for each [j] below 16, operation [16 + 2 j]
    reads the random number register and operation [17 + 2 j] prints the
    line for index [j] with the value that very read handed back, twice. *)
Theorem boot_prints_random_numbers (w : world Ext) (fuel j : nat) :
  (64 < fuel)%nat -> (j < 16)%nat ->
  List.length (trace_of collab fuel w (boot pf)) = 48%nat /\
  exists r,
    nth_error (trace_of collab fuel w (boot pf)) (16 + 2 * j)
    = Some (Ev (reg_load MISC (Z.quot (MISC_RNG_REG pf) 4)), [r]) /\
    nth_error (trace_of collab fuel w (boot pf)) (17 + 2 * j)
    = Some (Ev (printf "%d: %08X (%d)\n" [Z.of_nat j; r; r]), []).
Proof.
  intros Hf Hj.
  destruct (boot_rng_completes w) as (l & w' & Hb & Hlen & w16 & Hs).
  destruct (completes_run collab _ _ _ _ _ _ fuel Hb Hf) as (-> & _ & _).
  split; [exact Hlen|].
  destruct (rng_log_nth 16 0 w16 j Hj) as (r & H1 & H2).
  exists r. rewrite <- Hs in H1, H2.
  rewrite nth_error_skipn in H1, H2.
  replace (17 + 2 * j)%nat with (16 + S (2 * j))%nat by lia.
  split; assumption.
Qed.

End TextExtras.
(** ** The further properties at concrete inputs *)

Section ExtraInstances.

Import Sample.

(** X1 at red and at its two top bits. *)
Lemma lcd_pset_n_mask_witness :
  Z.land 0xFF0000 0xC0C0C0 = Z.land 0xC00000 0xC0C0C0 /\
  lcd_pset_n 0xFF0000 = lcd_pset_n 0xC00000.
Proof.
  assert (H1 : Z.land 0xFF0000 0xC0C0C0 = Z.land 0xC00000 0xC0C0C0) by reflexivity.
  refine (conj H1 _).
  exact (proj2 (lcd_pset_n_mask 0xFF0000 0xC00000) H1).
Defined.

(** X2 at pixel (3, 2). *)
Lemma lcd_pset_index_in_buffer_witness :
  0 <= 3 <= 480 /\ 0 <= 2 <= 320 /\
  0 <= lcd_pset_index 3 2 /\ (lcd_pset_index 3 2 < lcdfb_size <-> 2 < 320).
Proof.
  assert (H1 : 0 <= 3 <= 480) by lia.
  assert (H2 : 0 <= 2 <= 320) by lia.
  refine (conj H1 (conj H2 _)).
  exact (lcd_pset_index_in_buffer 3 2 H1 H2).
Defined.

(** X3 at the pixels (2, 5) and (3, 5), which share a byte. *)
Lemma lcd_pset_index_inj_witness :
  0 <= 2 <= 480 /\ 0 <= 5 <= 320 /\ 0 <= 3 <= 480 /\
  (lcd_pset_index 2 5 = lcd_pset_index 3 5 <-> 5 = 5 /\ 2 / 2 = 3 / 2).
Proof.
  assert (H1 : 0 <= 2 <= 480) by lia.
  assert (H2 : 0 <= 5 <= 320) by lia.
  assert (H3 : 0 <= 3 <= 480) by lia.
  refine (conj H1 (conj H2 (conj H3 _))).
  exact (proj1 (lcd_pset_index_inj 2 5 3 5 H1 H2 H3 H2)).
Defined.

(** X4 at pixel (3, 2), red then green. *)
Lemma lcd_pset_overwrites_witness :
  (10 < 11)%nat /\
  same_world
    (world_of collab 11 w1 (lcd_pset 3 2 0xFF0000;; lcd_pset 3 2 0x00FF00))
    (world_of collab 11 w1 (lcd_pset 3 2 0x00FF00)).
Proof.
  assert (H1 : (10 < 11)%nat) by lia.
  refine (conj H1 _).
  exact (lcd_pset_overwrites collab 3 2 0xFF0000 0x00FF00 w1 11 H1).
Defined.

(** X5 at the pixels (3, 2) and (2, 2), the two halves of one byte. *)
Lemma lcd_pset_commutes_witness :
  (10 < 11)%nat /\ (3, 2) <> (2, 2) /\
  same_world
    (world_of collab 11 w1 (lcd_pset 3 2 0xFF0000;; lcd_pset 2 2 0x00FF00))
    (world_of collab 11 w1 (lcd_pset 2 2 0x00FF00;; lcd_pset 3 2 0xFF0000)).
Proof.
  assert (H1 : (10 < 11)%nat) by lia.
  assert (H2 : (3, 2) <> (2, 2)) by discriminate.
  refine (conj H1 (conj H2 _)).
  exact (lcd_pset_commutes collab 3 2 0xFF0000 2 2 0x00FF00 w1 11 H1 H2).
Defined.

(** X6 on the sample platform, at an address that is not aligned. *)
Lemma cache_flush_p_aligned_witness :
  0 <= 0x40100003 < 2 ^ 32 /\
  MACH_RAM_START pf mod 4 = 0 /\ MACH_FLUSH_REGION pf mod 4 = 0 /\
  cache_flush_p pf 0x40100003 mod 4 = 0.
Proof.
  assert (H1 : 0 <= 0x40100003 < 2 ^ 32) by lia.
  assert (H2 : MACH_RAM_START pf mod 4 = 0) by reflexivity.
  assert (H3 : MACH_FLUSH_REGION pf mod 4 = 0) by reflexivity.
  refine (conj H1 (conj H2 (conj H3 _))).
  exact (proj1 (cache_flush_p_aligned pf 0x40100003 H1 H2 H3)).
Defined.

(** X12 at pixel (3, 299), in the last row that is flushed. *)
Lemma diag_flush_covers_rows_witness :
  (1505 < 1506)%nat /\ 0 <= 3 <= 480 /\ 0 <= 299 <= 320 /\
  (lcdfb (drawn_world pf collab 0 w1) + lcd_pset_index 3 299
   < lcdfb (drawn_world pf collab 0 w1) + Z.quot (320 * 480) 2 <-> 299 < 300).
Proof.
  assert (H1 : (1505 < 1506)%nat) by lia.
  assert (H2 : 0 <= 3 <= 480) by lia.
  assert (H3 : 0 <= 299 <= 320) by lia.
  refine (conj H1 (conj H2 (conj H3 _))).
  exact (proj2 (proj2 (diag_flush_covers_rows pf collab 0 3 299 w1 1506 H1 H2 H3))).
Defined.

(** X7 in a run of 70 steps from the sample world. *)
Lemma main_loads_once_witness :
  nth_error (trace_of collab 70 w0 (main pf 0)) 48
  = Some (Ev (load_new_app "autoexec.elf" 0), [0x40002000; 0x40010000]) /\
  48%nat = 48%nat /\ "autoexec.elf"%string = "autoexec.elf"%string /\ 0 = 0.
Proof.
  assert (H1 : nth_error (trace_of collab 70 w0 (main pf 0)) 48
               = Some (Ev (load_new_app "autoexec.elf" 0),
                       [0x40002000; 0x40010000]))
    by (vm_compute; reflexivity).
  refine (conj H1 _).
  exact (main_loads_once pf collab 0 w0 70 48 "autoexec.elf" 0 _ H1).
Defined.

(** X8 at the first string put on the screen, in a run of 80 steps. *)
Lemma main_diag_after_entry_witness :
  nth_error (trace_of collab 80 w0 (main pf 0)) 53
  = Some (Ev (UG_PutString 0 0 "Hello world!"), []) /\
  is_diag (Ev (UG_PutString 0 0 "Hello world!"), []) = true /\
  (52 < 53)%nat /\
  exists la ans,
    nth_error (trace_of collab 80 w0 (main pf 0)) 52
    = Some (Ev (maincall la 0 NULL), ans).
Proof.
  assert (H1 : nth_error (trace_of collab 80 w0 (main pf 0)) 53
               = Some (Ev (UG_PutString 0 0 "Hello world!"), []))
    by (vm_compute; reflexivity).
  assert (H2 : is_diag (Ev (UG_PutString 0 0 "Hello world!"), []) = true)
    by reflexivity.
  refine (conj H1 (conj H2 _)).
  exact (main_diag_after_entry pf collab 0 w0 80 53 _ H1 H2).
Defined.

(** X9 with a loader that fails, in a run of 70 steps. *)
Lemma main_enters_null_entry_witness :
  nth_error (trace_of (SampleNull.collab 0x40100000) (70 + 0) w0 (main pf 0)) 48
  = Some (Ev (load_new_app "autoexec.elf" 0), [NULL; 0]) /\
  nth_error (trace_of (SampleNull.collab 0x40100000) (70 + 0) w0 (main pf 0)) 52
  = Some (Ev (maincall NULL 0 NULL), []).
Proof.
  assert (H1 : nth_error
                 (trace_of (SampleNull.collab 0x40100000) (70 + 0) w0 (main pf 0)) 48
               = Some (Ev (load_new_app "autoexec.elf" 0), [NULL; 0]))
    by (vm_compute; reflexivity).
  refine (conj H1 _).
  exact (proj2 (main_enters_null_entry pf (SampleNull.collab 0x40100000) 0 0 w0 0 H1)).
Defined.

(** X11 for two iterations from the counter value 0. *)
Lemma diag_loop_counts_witness :
  INT_MIN <= 0 /\ 0 + Z.of_nat 2 <= INT_MAX /\
  exists l w',
    (forall more,
       trace_of collab (1506 * 2 + more) w1 (diag_loop pf 0)
       = l ++ trace_of collab more w' (diag_loop pf (0 + Z.of_nat 2))) /\
    strings_put l
    = map (fun k => (48, 64, sprintf_d (0 + Z.of_nat k))) (seq 1 2) /\
    List.length (filter is_poll l) = (1000 * 2)%nat /\
    List.length (filter is_store32 l) = 2%nat.
Proof.
  assert (H1 : INT_MIN <= 0) by (unfold INT_MIN; lia).
  assert (H2 : 0 + Z.of_nat 2 <= INT_MAX) by (unfold INT_MAX; simpl; lia).
  refine (conj H1 (conj H2 _)).
  exact (diag_loop_counts pf collab 2 0 w1 H1 H2).
Defined.

(** X13 at the counter value 99. *)
Lemma diag_iteration_text_fits_witness :
  (1505 < 1506)%nat /\
  exists s,
    nth_error (trace_of collab 1506 w1 (diag_iteration pf 99)) 1
    = Some (Ev (UG_PutString 48 64 s), []) /\
    (String.length s + 1 <= 12)%nat /\ (12 <= buf_size)%nat /\
    decimal_value s = result_of collab 1506 w1 (diag_iteration pf 99).
Proof.
  assert (H1 : (1505 < 1506)%nat) by lia.
  refine (conj H1 _).
  exact (diag_iteration_text_fits pf collab 99 w1 1506 H1).
Defined.

(** X14 at the fourth random number, in a run of 65 steps. *)
Lemma boot_prints_random_numbers_witness :
  (64 < 65)%nat /\ (3 < 16)%nat /\
  List.length (trace_of collab 65 w0 (boot pf)) = 48%nat /\
  exists r,
    nth_error (trace_of collab 65 w0 (boot pf)) (16 + 2 * 3)
    = Some (Ev (reg_load MISC (Z.quot (MISC_RNG_REG pf) 4)), [r]) /\
    nth_error (trace_of collab 65 w0 (boot pf)) (17 + 2 * 3)
    = Some (Ev (printf "%d: %08X (%d)\n" [Z.of_nat 3; r; r]), []).
Proof.
  assert (H1 : (64 < 65)%nat) by lia.
  assert (H2 : (3 < 16)%nat) by lia.
  refine (conj H1 (conj H2 _)).
  exact (boot_prints_random_numbers pf collab w0 65 3 H1 H2).
Defined.

End ExtraInstances.
